(** * Field Data Collection & Sync Tool: assistant resolver, record filter,
      CSV export and dashboard aggregation

    Shallow embedding of the decision logic of the repository:

    - [supabase/functions/chatbot] (the Deno edge function printed in
      README.md): [generateFallbackResponse] and the [Deno.serve] handler;
    - [src/components/RecordsView.tsx]: [applyFilters] and [exportFiltered];
    - the [Dashboard] component: the grouping [reduce] of
      [loadDashboardData] and [exportData].

    JavaScript strings are modelled as [string] (a sequence of 8-bit code
    units holding the bytes of the source text); exceptions as an explicit
    completion type; the [Date] time value as [option Z] (milliseconds since
    the epoch, [None] for NaN); an ordinary object used as a dictionary as
    an ordered property list together with the key order of
    [OrdinaryOwnPropertyKeys]. *)

From Stdlib Require Import String Ascii List ZArith Lia Bool Arith QArith.
From Stdlib Require Import Permutation Sorted DecimalString.
Import ListNotations.

Local Open Scope string_scope.
Local Open Scope bool_scope.

(* ================================================================= *)
(** ** JavaScript strings *)

Module JsString.

(** [String.prototype.toLowerCase] on the ASCII range: A-Z are mapped to
    a-z, every other code unit is kept.  The case mapping of letters
    outside ASCII is not modelled; the keywords of the classifier are ASCII
    and a multi-byte character never contains an ASCII byte. *)
Definition lowerAscii (c : ascii) : ascii :=
  let n := nat_of_ascii c in
  if (65 <=? n)%nat && (n <=? 90)%nat then ascii_of_nat (n + 32) else c.

Fixpoint toLowerCase (s : string) : string :=
  match s with
  | EmptyString => EmptyString
  | String c s' => String (lowerAscii c) (toLowerCase s')
  end.

(** [startsWith s t]: [t] is a prefix of [s]. *)
Fixpoint startsWith (s t : string) {struct t} : bool :=
  match t, s with
  | EmptyString, _ => true
  | String _ _, EmptyString => false
  | String b t', String a s' => Ascii.eqb a b && startsWith s' t'
  end.

(** [String.prototype.includes]: [t] occurs in [s] at some position. *)
Fixpoint includes (s t : string) : bool :=
  startsWith s t ||
  match s with
  | EmptyString => false
  | String _ s' => includes s' t
  end.

(** Truthiness of a string value: every string but the empty one. *)
Definition truthy (s : string) : bool :=
  match s with
  | EmptyString => false
  | String _ _ => true
  end.

(** [Array.prototype.join] on an array of strings. *)
Fixpoint join (sep : string) (xs : list string) : string :=
  match xs with
  | [] => ""
  | [x] => x
  | x :: xs' => x ++ sep ++ join sep xs'
  end.

(** The line feed used as row separator. *)
Definition LF : string := String (ascii_of_nat 10) EmptyString.

End JsString.

(* ================================================================= *)
(** ** Completions: normal results and thrown exceptions *)

Inductive JsError : Type :=
| SyntaxError   (* a body that is not JSON *)
| TypeError     (* property access on null, destructuring of null *)
| FetchFailed.  (* fetch rejected: the network call did not complete *)

Inductive completion (A : Type) : Type :=
| Normal (a : A)
| Throw (e : JsError).
Arguments Normal {A} a.
Arguments Throw {A} e.

Definition bind {A B : Type} (c : completion A) (k : A -> completion B) : completion B :=
  match c with
  | Normal a => k a
  | Throw e => Throw e
  end.

(** [try { c } catch (error) { h }] *)
Definition tryCatch {A : Type} (c : completion A) (h : JsError -> A) : A :=
  match c with
  | Normal a => a
  | Throw e => h e
  end.

Notation "x <- c ;; k" := (bind c (fun x => k))
  (at level 61, c at next level, right associativity).

(* ================================================================= *)
(** ** JSON values, as returned by [JSON.parse] and given to [JSON.stringify] *)

#[warnings="-register-all"]
Inductive Json : Type :=
| JNull
| JBool (b : bool)
| JNum (q : Q)
| JStr (s : string)
| JArr (xs : list Json)
| JObj (props : list (string * Json)).

Module JsValue.

(** A JavaScript value read from a JSON document: [None] is [undefined]. *)
Definition t : Type := option Json.

Fixpoint assoc (k : string) (props : list (string * Json)) : option Json :=
  match props with
  | [] => None
  | (k', v) :: rest => if String.eqb k k' then Some v else assoc k rest
  end.

(** [v[k]] for a value that is neither [null] nor [undefined], for the
    keys the handler reads ("candidates", "0", "content", "parts",
    "text"): none of them is inherited from a prototype, so the result is
    the own property or [undefined]. *)
Definition getOwn (v : Json) (k : string) : t :=
  match v with
  | JObj props => assoc k props
  | JArr xs => if String.eqb k "0" then nth_error xs 0 else None
  | JStr (String c _) => if String.eqb k "0" then Some (JStr (String c "")) else None
  | _ => None
  end.

(** [v.k]: throws a TypeError on [null]. *)
Definition member (v : Json) (k : string) : completion t :=
  match v with
  | JNull => Throw TypeError
  | _ => Normal (getOwn v k)
  end.

(** [x?.k] and [x?.[k]]: [undefined] when [x] is [null] or [undefined]. *)
Definition optChain (x : t) (k : string) : t :=
  match x with
  | None | Some JNull => None
  | Some v => getOwn v k
  end.

(** ToBoolean. *)
Definition truthy (x : t) : bool :=
  match x with
  | None | Some JNull => false
  | Some (JBool b) => b
  | Some (JNum q) => negb (Qeq_bool q 0)
  | Some (JStr s) => JsString.truthy s
  | Some (JArr _) | Some (JObj _) => true
  end.

(** [x || d] where [d] is a value. *)
Definition orElse (x : t) (d : Json) : Json :=
  match x with
  | Some v => if truthy x then v else d
  | None => d
  end.

End JsValue.

(* ================================================================= *)
(** ** The chatbot edge function *)

Module Chatbot.
Import JsString.

Definition temperatureResponse : string :=
  "For temperature measurements, ensure your sensors are calibrated and protected from direct sunlight. Normal soil temperatures range from 50-80Â°F depending on season and depth. Consider measuring at multiple depths for better insights.".

Definition humidityResponse : string :=
  "Humidity levels are crucial for crop health. Ideal relative humidity varies by crop but generally ranges from 40-70%. High humidity can lead to fungal issues, while low humidity may stress plants. Monitor throughout the day as levels fluctuate.".

Definition soilResponse : string :=
  "Soil pH affects nutrient availability. Most crops prefer slightly acidic to neutral soil (pH 6.0-7.0). Test soil pH regularly and consider amendments like lime to raise pH or sulfur to lower it. Take samples from multiple locations for accuracy.".

Definition dataResponse : string :=
  "Consistent data collection is key to successful field management. Record measurements at the same time daily when possible, maintain detailed location notes, and look for patterns over time. Your data helps identify trends and optimize practices.".

Definition helpResponse : string :=
  "I'm here to help with your field data questions! I can provide insights on temperature, humidity, soil conditions, and data collection best practices. Feel free to ask about specific measurements or general field management guidance.".

Definition genericResponse : string :=
  "Thank you for your question! I can provide general guidance on field data practices. Please ensure consistent data collection timing, record detailed location information, and look for patterns in your data over time. For specific technical questions, consider consulting with agricultural extension services or field specialists.".

(** [generateFallbackResponse(message: string): string] *)
Definition generateFallbackResponse (message : string) : string :=
  let lowerMessage := toLowerCase message in
  if includes lowerMessage "temperature" then temperatureResponse
  else if includes lowerMessage "humidity" then humidityResponse
  else if includes lowerMessage "soil" || includes lowerMessage "ph" then soilResponse
  else if includes lowerMessage "data" || includes lowerMessage "record" then dataResponse
  else if includes lowerMessage "help" || includes lowerMessage "how" then helpResponse
  else genericResponse.

(** [interface ChatbotRequest]: the three fields of the request body;
    [None] is a field that is absent from the body ([undefined] after the
    destructuring). *)
Record ChatbotRequest : Type := {
  message : option string;
  user_id : option string;
  apiKey : option string
}.

(** The incoming [Request]: its method and the completion of
    [await req.json()] followed by the destructuring. *)
Record Request : Type := {
  method : string;
  json : completion ChatbotRequest
}.

(** The [Response] built by the handler: status, headers and the value
    given to [JSON.stringify] ([None] for the [null] body). *)
Record Response : Type := {
  status : Z;
  headers : list (string * string);
  body : option Json
}.

Definition corsHeaders : list (string * string) :=
  [ ("Access-Control-Allow-Origin", "*");
    ("Access-Control-Allow-Headers", "authorization, x-client-info, apikey, content-type");
    ("Access-Control-Allow-Methods", "GET, POST, PUT, DELETE, OPTIONS") ].

Definition jsonResponse (st : Z) (b : Json) : Response :=
  {| status := st;
     headers := corsHeaders ++ [("Content-Type", "application/json")];
     body := Some b |}.

(** The request sent to the generative-language endpoint. *)
Record GenerateContent : Type := {
  promptText : string;
  maxOutputTokens : Z;
  temperature : Q
}.

Definition endpoint : string :=
  "https://generativelanguage.googleapis.com/v1beta/models/gemini-pro:generateContent?key=".

Definition preamble : string :=
  "You are a helpful AI assistant specializing in field data collection and analysis. You help users understand their agricultural or scientific field data, provide insights, and offer guidance on best practices. Keep responses concise and practical.".

Definition geminiRequest (msg : string) : GenerateContent :=
  {| promptText := preamble ++ LF ++ LF ++ "User: " ++ msg;
     maxOutputTokens := 500;
     temperature := 7 # 10 |}.

(** The endpoint's answer once [fetch] has resolved: the status line, the
    body text and the completion of [.json()] on that body.  The response
    is taken as fully received; a call that breaks before that is a
    rejected [fetch]. *)
Record GeminiResponse : Type := {
  gemini_status : Z;
  gemini_text : string;
  gemini_json : completion Json
}.

(** [Response.ok]: the status is in the range 200-299. *)
Definition ok (r : GeminiResponse) : bool :=
  (200 <=? gemini_status r)%Z && (gemini_status r <=? 299)%Z.

Definition apology : string :=
  "I apologize, but I encountered an error processing your request.".

Definition troubleConnecting : string :=
  "I apologize, but I'm having trouble connecting right now. Please try again later.".

(** [geminiData.candidates?.[0]?.content?.parts?.[0]?.text || '...'] *)
Definition aiResponse (geminiData : Json) : completion Json :=
  candidates <- JsValue.member geminiData "candidates" ;;
  let first := JsValue.optChain candidates "0" in
  let content := JsValue.optChain first "content" in
  let parts := JsValue.optChain content "parts" in
  let part := JsValue.optChain parts "0" in
  let text := JsValue.optChain part "text" in
  Normal (JsValue.orElse text (JStr apology)).

Definition missingFields : Response :=
  jsonResponse 400 (JObj [("error", JStr "Missing required fields")]).

Definition reply (r : Json) : Response :=
  jsonResponse 200 (JObj [("response", r)]).

Definition fallbackReply (msg : string) : Response :=
  reply (JStr (generateFallbackResponse msg)).

Definition errorReply : Response :=
  jsonResponse 500
    (JObj [("error", JStr "An error occurred while processing your request");
           ("response", JStr troubleConnecting)]).

Definition optTruthy (o : option string) : bool :=
  match o with
  | Some s => truthy s
  | None => false
  end.

Section Handler.

(** The network: what [fetch(url, init)] completes with. *)
Variable fetch : string -> GenerateContent -> completion GeminiResponse.

(** The body of the [try] block.  [console.error] only writes to the
    function's log and is left out. *)
Definition resolve (req : Request) : completion Response :=
  r <- json req ;;
  match message r, user_id r with
  | Some msg, Some uid =>
      if negb (truthy msg) || negb (truthy uid) then Normal missingFields
      else if negb (optTruthy (apiKey r)) then Normal (fallbackReply msg)
      else
        let key := match apiKey r with Some k => k | None => "" end in
        geminiResponse <- fetch (endpoint ++ key) (geminiRequest msg) ;;
        if negb (ok geminiResponse) then
          let errorText := gemini_text geminiResponse in
          Normal (fallbackReply msg)
        else
          geminiData <- gemini_json geminiResponse ;;
          ai <- aiResponse geminiData ;;
          Normal (reply ai)
  | _, _ => Normal missingFields
  end.

(** The function given to [Deno.serve]. *)
Definition handler (req : Request) : Response :=
  if String.eqb (method req) "OPTIONS" then
    {| status := 200; headers := corsHeaders; body := None |}
  else
    tryCatch (resolve req) (fun _ => errorReply).

End Handler.

(** The request lacks a message or a user identifier (an empty string
    counts as missing, as [!message || !user_id] does). *)
Definition lacksField (r : ChatbotRequest) : bool :=
  negb (optTruthy (message r)) || negb (optTruthy (user_id r)).

(** A POST request whose body parses to the three given fields. *)
Definition post (msg uid key : option string) : Request :=
  {| method := "POST";
     json := Normal {| message := msg; user_id := uid; apiKey := key |} |}.

(** Sample networks: a call that never completes, and an endpoint that
    answers 503. *)
Definition unreachable : string -> GenerateContent -> completion GeminiResponse :=
  fun _ _ => Throw FetchFailed.

Definition unavailable : string -> GenerateContent -> completion GeminiResponse :=
  fun _ _ =>
    Normal {| gemini_status := 503;
              gemini_text := "Service Unavailable";
              gemini_json := Throw SyntaxError |}.

(** *** The classifier as the specification words it: an ordered list of
    (keywords, response) rules, the first rule with a keyword contained in
    the lowercased message wins. *)
Definition keywordRules : list (list string * string) :=
  [ (["temperature"], temperatureResponse);
    (["humidity"], humidityResponse);
    (["soil"; "ph"], soilResponse);
    (["data"; "record"], dataResponse);
    (["help"; "how"], helpResponse) ].

Fixpoint firstMatch (rules : list (list string * string)) (lower : string)
    (otherwise : string) : string :=
  match rules with
  | [] => otherwise
  | (keywords, response) :: rest =>
      if existsb (includes lower) keywords then response
      else firstMatch rest lower otherwise
  end.

Definition spec_classify (msg : string) : string :=
  firstMatch keywordRules (toLowerCase msg) genericResponse.

Definition cannedResponses : list string :=
  [ temperatureResponse; humidityResponse; soilResponse;
    dataResponse; helpResponse; genericResponse ].

End Chatbot.

(* ================================================================= *)
(** ** Dates: [new Date(string)] and the comparison of two dates *)

Module JsDate.

Local Open Scope Z_scope.

(** The parts of [Date.parse] that the language leaves to the host: the
    offset of the local time zone in milliseconds (taken as constant) and
    the fallback applied to strings outside the ISO date-time format. *)
Record Host : Type := {
  LocalTZA : Z;
  legacyParse : string -> option Z
}.

(** Where a parsed date-time is anchored. *)
Inductive Zone : Type :=
| UTC
| Local
| Offset (ms : Z).

Definition digit (c : ascii) : option Z :=
  let n := nat_of_ascii c in
  if (48 <=? n)%nat && (n <=? 57)%nat then Some (Z.of_nat (n - 48)) else None.

(** Exactly [n] decimal digits. *)
Fixpoint digits (n : nat) (acc : Z) (s : string) : option (Z * string) :=
  match n with
  | O => Some (acc, s)
  | S n' =>
      match s with
      | String c s' =>
          match digit c with
          | Some d => digits n' (10 * acc + d) s'
          | None => None
          end
      | EmptyString => None
      end
  end.

(** The digits of a fraction of a second: all of them are consumed, the
    first three give the milliseconds. *)
Fixpoint fraction (weight : Z) (s : string) : Z * string :=
  match s with
  | String c s' =>
      match digit c with
      | Some d => let '(ms, rest) := fraction (weight / 10) s' in (d * weight + ms, rest)
      | None => (0, s)
      end
  | EmptyString => (0, s)
  end.

(** Days between the epoch and the given civil date (proleptic Gregorian
    calendar), as [MakeDay] computes them. *)
Definition daysFromCivil (y m d : Z) : Z :=
  let y' := if m <=? 2 then y - 1 else y in
  let era := y' / 400 in
  let yoe := y' - era * 400 in
  let mp := if 2 <? m then m - 3 else m + 9 in
  let doy := (153 * mp + 2) / 5 + d - 1 in
  let doe := yoe * 365 + yoe / 4 - yoe / 100 + doy in
  era * 146097 + doe - 719468.

Definition msPerDay : Z := 86400000.

(** [YYYY] or the expanded [+YYYYYY] / [-YYYYYY]. *)
Definition parseYear (s : string) : option (Z * string) :=
  match s with
  | String "+" s' => digits 6 0 s'
  | String "-" s' =>
      match digits 6 0 s' with
      | Some (y, rest) => if y =? 0 then None else Some (- y, rest)
      | None => None
      end
  | _ => digits 4 0 s
  end.

(** An optional [-MM] or [-DD]. *)
Definition parseDashField (s : string) : option (option Z * string) :=
  match s with
  | String "-" s' =>
      match digits 2 0 s' with
      | Some (v, rest) => Some (Some v, rest)
      | None => None
      end
  | _ => Some (None, s)
  end.

(** [Z] or [+HH:mm] / [-HH:mm] or nothing, up to the end of the string. *)
Definition parseZone (s : string) : option Zone :=
  match s with
  | EmptyString => Some Local
  | String "Z" EmptyString => Some UTC
  | String sign s' =>
      if Ascii.eqb sign "+" || Ascii.eqb sign "-" then
        match digits 2 0 s' with
        | Some (h, String ":" s'') =>
            match digits 2 0 s'' with
            | Some (mi, EmptyString) =>
                if (h <=? 23) && (mi <=? 59) then
                  let off := (h * 60 + mi) * 60000 in
                  Some (Offset (if Ascii.eqb sign "-" then - off else off))
                else None
            | _ => None
            end
        | _ => None
        end
      else None
  end.

(** [HH:mm], [HH:mm:ss] or [HH:mm:ss.sss], then the zone: the milliseconds
    within the day and the zone. *)
Definition parseTime (s : string) : option (Z * Zone) :=
  match digits 2 0 s with
  | Some (h, String ":" s1) =>
      match digits 2 0 s1 with
      | Some (mi, s2) =>
          let secs :=
            match s2 with
            | String ":" s3 =>
                match digits 2 0 s3 with
                | Some (sec, String "." s4) =>
                    match s4 with
                    | String c _ =>
                        match digit c with
                        | Some _ => let '(ms, rest) := fraction 100 s4 in Some (sec, ms, rest)
                        | None => None
                        end
                    | EmptyString => None
                    end
                | Some (sec, rest) => Some (sec, 0, rest)
                | None => None
                end
            | _ => Some (0, 0, s2)
            end in
          match secs with
          | Some (sec, ms, rest) =>
              match parseZone rest with
              | Some zone =>
                  if (h <=? 24) && (mi <=? 59) && (sec <=? 59)
                     && ((h <? 24) || ((mi =? 0) && (sec =? 0) && (ms =? 0)))
                  then Some (((h * 60 + mi) * 60 + sec) * 1000 + ms, zone)
                  else None
              | None => None
              end
          | None => None
          end
      | None => None
      end
  | _ => None
  end.

(** The ISO date-time string format: the time stamp read as if it were UTC,
    and the zone it is anchored in.  Date-only forms are UTC; date-time
    forms without an offset are local time. *)
Definition parseISO (s : string) : option (Z * Zone) :=
  match parseYear s with
  | Some (y, s1) =>
      match parseDashField s1 with
      | Some (month, s2) =>
          match (match month with
                 | Some _ => parseDashField s2
                 | None => Some (None, s2)
                 end) with
          | Some (day, s3) =>
              let m := match month with Some v => v | None => 1 end in
              let d := match day with Some v => v | None => 1 end in
              if (1 <=? m) && (m <=? 12) && (1 <=? d) && (d <=? 31) then
                let date := daysFromCivil y m d * msPerDay in
                match s3 with
                | EmptyString => Some (date, UTC)
                | String "T" s4 =>
                    match parseTime s4 with
                    | Some (time, zone) => Some (date + time, zone)
                    | None => None
                    end
                | _ => None
                end
              else None
          | None => None
          end
      | None => None
      end
  | None => None
  end.

(** [TimeClip]: time values beyond 8.64e15 ms are NaN. *)
Definition TimeClip (t : Z) : option Z :=
  if Z.abs t <=? 8640000000000000 then Some t else None.

Definition utcOf (host : Host) (stamp : Z) (zone : Zone) : Z :=
  match zone with
  | UTC => stamp
  | Local => stamp - LocalTZA host
  | Offset ms => stamp - ms
  end.

(** [Date.parse]: the ISO format first; a string that is not of that format
    (or holds an element out of range) is left to the host's fallback, which
    answers NaN for what it does not recognise. *)
Definition parse (host : Host) (s : string) : option Z :=
  match parseISO s with
  | Some (stamp, zone) => TimeClip (utcOf host stamp zone)
  | None => legacyParse host s
  end.

(** A [Date] object is its time value; [None] is the Invalid Date. *)
Definition t : Type := option Z.

(** [new Date(s)] for a string [s]. *)
Definition new (host : Host) (s : string) : t := parse host s.

(** [a >= b] and [a <= b] on two dates: the comparison of the two time
    values, false as soon as one of them is NaN. *)
Definition ge (a b : t) : bool :=
  match a, b with
  | Some x, Some y => y <=? x
  | _, _ => false
  end.

Definition le (a b : t) : bool :=
  match a, b with
  | Some x, Some y => x <=? y
  | _, _ => false
  end.

(** A host without fallback formats, in the UTC time zone. *)
Definition strictUtcHost : Host :=
  {| LocalTZA := 0; legacyParse := fun _ => None |}.

End JsDate.

(* ================================================================= *)
(** ** Ordinary objects used as dictionaries *)

Module JsObject.

(** The names every object literal inherits from [Object.prototype]; each
    of them reads as a function or an object, which is truthy. *)
Definition prototypeKeys : list string :=
  [ "constructor"; "__defineGetter__"; "__defineSetter__"; "hasOwnProperty";
    "__lookupGetter__"; "__lookupSetter__"; "isPrototypeOf";
    "propertyIsEnumerable"; "toString"; "valueOf"; "__proto__";
    "toLocaleString" ].

Definition inherited (k : string) : bool :=
  existsb (String.eqb k) prototypeKeys.

Fixpoint decimal (acc : N) (s : string) : option N :=
  match s with
  | EmptyString => Some acc
  | String c s' =>
      let n := nat_of_ascii c in
      if (48 <=? n)%nat && (n <=? 57)%nat
      then decimal (10 * acc + N.of_nat (n - 48)) s'
      else None
  end.

(** An array index: the canonical decimal form of an integer between 0 and
    2^32 - 2. *)
Definition arrayIndex (k : string) : option N :=
  match k with
  | EmptyString => None
  | String "0" (String _ _) => None
  | _ =>
      match decimal 0 k with
      | Some n => if (n <=? 4294967294)%N then Some n else None
      | None => None
      end
  end.

Definition isArrayIndex (k : string) : bool :=
  match arrayIndex k with
  | Some _ => true
  | None => false
  end.

Section Properties.

Variable V : Type.

(** The own properties, in the order of their creation. *)
Definition t : Type := list (string * V).

Definition empty : t := [].

Fixpoint getOwn (o : t) (k : string) : option V :=
  match o with
  | [] => None
  | (k', v) :: rest => if String.eqb k k' then Some v else getOwn rest k
  end.

(** The result of reading [o[k]]: an own property, a property found on
    [Object.prototype], or [undefined]. *)
Inductive Lookup : Type :=
| Own (v : V)
| Inherited
| Undefined.

Definition get (o : t) (k : string) : Lookup :=
  match getOwn o k with
  | Some v => Own v
  | None => if inherited k then Inherited else Undefined
  end.

(** [o[k] = v] on an own or a new data property: an existing property keeps
    its place, a new one is created last. *)
Fixpoint set (o : t) (k : string) (v : V) : t :=
  match o with
  | [] => [(k, v)]
  | (k', v') :: rest =>
      if String.eqb k k' then (k', v) :: rest else (k', v') :: set rest k v
  end.

Fixpoint insertIndexed (n : N) (v : V) (sorted : list (N * V)) : list (N * V) :=
  match sorted with
  | [] => [(n, v)]
  | (m, w) :: rest =>
      if (n <=? m)%N then (n, v) :: sorted else (m, w) :: insertIndexed n v rest
  end.

(** The array-index properties in ascending numeric order. *)
Fixpoint indexed (o : t) : list (N * V) :=
  match o with
  | [] => []
  | (k, v) :: rest =>
      match arrayIndex k with
      | Some n => insertIndexed n v (indexed rest)
      | None => indexed rest
      end
  end.

(** The other properties, in creation order. *)
Fixpoint named (o : t) : list V :=
  match o with
  | [] => []
  | (k, v) :: rest => if isArrayIndex k then named rest else v :: named rest
  end.

(** [Object.values(o)]: array indices first, in ascending order, then the
    string keys in creation order. *)
Definition values (o : t) : list V :=
  map snd (indexed o) ++ named o.

End Properties.

Arguments empty {V}.
Arguments getOwn {V} o k.
Arguments Own {V} v.
Arguments Inherited {V}.
Arguments Undefined {V}.
Arguments get {V} o k.
Arguments set {V} o k v.
Arguments values {V} o.
Arguments indexed {V} o.
Arguments named {V} o.

End JsObject.

(* ================================================================= *)
(** ** Records View: [applyFilters] and [exportFiltered] *)

Module FieldRecord.

(** A row of [field_records]. *)
Record t : Type := {
  id : string;
  field : string;
  value : string;
  location : string;
  timestamp : string;
  user_id : string
}.

End FieldRecord.

Module FilterState.

Record t : Type := {
  field : string;
  location : string;
  dateFrom : string;
  dateTo : string
}.

(** The initial state, restored by [clearFilters]. *)
Definition initial : t :=
  {| field := ""; location := ""; dateFrom := ""; dateTo := "" |}.

End FilterState.

(** A file offered for download. *)
Record Download : Type := {
  content : string;
  download : string;
  mimeType : string
}.

(** [isoString.split('T')[0]] *)
Fixpoint beforeT (s : string) : string :=
  match s with
  | EmptyString => EmptyString
  | String c s' => if Ascii.eqb c "T" then EmptyString else String c (beforeT s')
  end.

Module RecordsView.
Import JsString.

Section Filters.

Variable host : JsDate.Host.

(** The five predicates of [applyFilters]. *)
Definition matchesSearch (searchTerm : string) (record : FieldRecord.t) : bool :=
  includes (toLowerCase (FieldRecord.field record)) (toLowerCase searchTerm)
  || includes (toLowerCase (FieldRecord.value record)) (toLowerCase searchTerm)
  || includes (toLowerCase (FieldRecord.location record)) (toLowerCase searchTerm).

Definition matchesField (filters : FilterState.t) (record : FieldRecord.t) : bool :=
  includes (toLowerCase (FieldRecord.field record))
           (toLowerCase (FilterState.field filters)).

Definition matchesLocation (filters : FilterState.t) (record : FieldRecord.t) : bool :=
  includes (toLowerCase (FieldRecord.location record))
           (toLowerCase (FilterState.location filters)).

Definition notBefore (filters : FilterState.t) (record : FieldRecord.t) : bool :=
  JsDate.ge (JsDate.new host (FieldRecord.timestamp record))
            (JsDate.new host (FilterState.dateFrom filters)).

Definition notAfter (filters : FilterState.t) (record : FieldRecord.t) : bool :=
  JsDate.le (JsDate.new host (FieldRecord.timestamp record))
            (JsDate.new host (FilterState.dateTo filters ++ "T23:59:59")).

(** [applyFilters]: the value given to [setFilteredRecords], from the
    component's [records], [searchTerm] and [filters]. *)
Definition applyFilters (records : list FieldRecord.t) (searchTerm : string)
    (filters : FilterState.t) : list FieldRecord.t :=
  let filtered := records in
  let filtered :=
    if truthy searchTerm then filter (matchesSearch searchTerm) filtered
    else filtered in
  let filtered :=
    if truthy (FilterState.field filters) then filter (matchesField filters) filtered
    else filtered in
  let filtered :=
    if truthy (FilterState.location filters) then filter (matchesLocation filters) filtered
    else filtered in
  let filtered :=
    if truthy (FilterState.dateFrom filters) then filter (notBefore filters) filtered
    else filtered in
  let filtered :=
    if truthy (FilterState.dateTo filters) then filter (notAfter filters) filtered
    else filtered in
  filtered.

End Filters.

Definition csvHeaders : list string :=
  ["ID"; "Field"; "Value"; "Location"; "Timestamp"].

Definition csvRow (record : FieldRecord.t) : string :=
  join "," [ FieldRecord.id record; FieldRecord.field record;
             FieldRecord.value record; FieldRecord.location record;
             FieldRecord.timestamp record ].

Definition csvContent (filteredRecords : list FieldRecord.t) : string :=
  join LF (join "," csvHeaders :: map csvRow filteredRecords).

(** [exportFiltered]: [now] is [new Date().toISOString()] at the time of
    the click. *)
Definition exportFiltered (now : string) (filteredRecords : list FieldRecord.t) : Download :=
  {| content := csvContent filteredRecords;
     download := "filtered_records_" ++ beforeT now ++ ".csv";
     mimeType := "text/csv" |}.

End RecordsView.

(* ================================================================= *)
(** ** Dashboard: the grouping of [loadDashboardData] and [exportData] *)

Module FieldValue.

(** A row of the query [select('field, value')]. *)
Record t : Type := {
  field : string;
  value : string
}.

End FieldValue.

Module FieldData.

(** [interface FieldData] *)
Record t : Type := {
  field : string;
  count : nat;
  value : string
}.

End FieldData.

Module Dashboard.
Import JsString.

(** The callback of [fieldData?.reduce(..., {})]. *)
Definition reducer (acc : JsObject.t FieldData.t) (record : FieldValue.t)
    : JsObject.t FieldData.t :=
  let key := FieldValue.field record in
  (* if (!acc[record.field]) acc[record.field] = { field, count: 0, value } *)
  let acc :=
    match JsObject.get acc key with
    | JsObject.Undefined =>
        JsObject.set acc key
          {| FieldData.field := FieldValue.field record;
             FieldData.count := 0;
             FieldData.value := FieldValue.value record |}
    | JsObject.Own _ | JsObject.Inherited => acc
    end in
  (* acc[record.field].count += 1: on an inherited object the write lands on
     that object and [acc] keeps its own properties *)
  match JsObject.getOwn acc key with
  | Some group =>
      JsObject.set acc key
        {| FieldData.field := FieldData.field group;
           FieldData.count := FieldData.count group + 1;
           FieldData.value := FieldData.value group |}
  | None => acc
  end.

(** [fieldData?.reduce(reducer, {}) || {}] *)
Definition groupedData (fieldData : option (list FieldValue.t)) : JsObject.t FieldData.t :=
  match fieldData with
  | Some rows => fold_left reducer rows JsObject.empty
  | None => JsObject.empty
  end.

(** [Object.values(groupedData).slice(0, limit)] for a non-negative
    [limit]. *)
Definition aggregate (rows : list FieldValue.t) (limit : nat) : list FieldData.t :=
  firstn limit (JsObject.values (groupedData (Some rows))).

(** The value given to [setRecentRecords]: the limit is 5. *)
Definition recentRecords (fieldData : option (list FieldValue.t)) : list FieldData.t :=
  firstn 5 (JsObject.values (groupedData fieldData)).

Inductive Format : Type :=
| csv
| json.

Definition csvHeaders : list string :=
  ["ID"; "Field"; "Value"; "Location"; "Timestamp"].

Definition csvContent (records : list FieldRecord.t) : string :=
  join LF
    (join "," csvHeaders ::
     map (fun record =>
            join "," [ FieldRecord.id record; FieldRecord.field record;
                       FieldRecord.value record; FieldRecord.location record;
                       FieldRecord.timestamp record ])
         records).

Section ExportData.

(** [JSON.stringify(records, null, 2)], left to the host. *)
Variable stringify : list FieldRecord.t -> string.

(** [exportData(format)] once the query has answered with [records]; [now]
    is [new Date().toISOString()]. *)
Definition exportData (now : string) (format : Format) (records : list FieldRecord.t)
    : Download :=
  match format with
  | csv =>
      {| content := csvContent records;
         download := "field_data_" ++ beforeT now ++ ".csv";
         mimeType := "text/csv" |}
  | json =>
      {| content := stringify records;
         download := "field_data_" ++ beforeT now ++ ".json";
         mimeType := "application/json" |}
  end.

End ExportData.

(** *** The aggregation as the specification words it: one group per
    distinct field name, in the order in which the names are first seen;
    the number of rows of that name; the value of the first such row. *)
Fixpoint distinctFields (rows : list FieldValue.t) : list string :=
  match rows with
  | [] => []
  | r :: rest =>
      FieldValue.field r ::
      filter (fun f => negb (String.eqb f (FieldValue.field r))) (distinctFields rest)
  end.

Definition occurrences (f : string) (rows : list FieldValue.t) : nat :=
  length (filter (fun r => String.eqb (FieldValue.field r) f) rows).

Definition firstValue (f : string) (rows : list FieldValue.t) : string :=
  match find (fun r => String.eqb (FieldValue.field r) f) rows with
  | Some r => FieldValue.value r
  | None => ""
  end.

Definition groupOf (rows : list FieldValue.t) (f : string) : FieldData.t :=
  {| FieldData.field := f;
     FieldData.count := occurrences f rows;
     FieldData.value := firstValue f rows |}.

Definition spec_aggregate (rows : list FieldValue.t) (limit : nat) : list FieldData.t :=
  firstn limit (map (groupOf rows) (distinctFields rows)).

(** A field name that an object literal treats as a plain string key:
    neither an array index nor a name inherited from [Object.prototype]. *)
Definition plainKey (k : string) : bool :=
  negb (JsObject.isArrayIndex k) && negb (JsObject.inherited k).

End Dashboard.

(* ================================================================= *)
(** ** Notions used by the statements *)

(** [Subseq l1 l2]: [l1] is obtained from [l2] by dropping elements; the
    kept ones stay in their order and each position is used once. *)
Inductive Subseq {A : Type} : list A -> list A -> Prop :=
| Subseq_nil : Subseq [] []
| Subseq_skip (x : A) (l1 l2 : list A) : Subseq l1 l2 -> Subseq l1 (x :: l2)
| Subseq_keep (x : A) (l1 l2 : list A) : Subseq l1 l2 -> Subseq (x :: l1) (x :: l2).

(** The guarded filtering step [if (c) filtered = filtered.filter(p)]. *)
Definition guarded (c : bool) (p : FieldRecord.t -> bool) (l : list FieldRecord.t)
  : list FieldRecord.t :=
  if c then filter p l else l.

(** A dictionary that holds, under each key of [l] and in that order, the
    value [g] gives for the key. *)
Definition tabulate {V : Type} (g : string -> V) (l : list string) : JsObject.t V :=
  map (fun f => (f, g f)) l.

(** Membership test on field names. *)
Definition mem (k : string) (l : list string) : bool :=
  existsb (String.eqb k) l.

(** A host whose local time zone lies within a day of UTC. *)
Definition usualHost (host : JsDate.Host) : Prop :=
  (Z.abs (JsDate.LocalTZA host) <= JsDate.msPerDay)%Z.

(** A record of field "Temp" taken at the given time stamp. *)
Definition recordAt (stamp : string) : FieldRecord.t :=
  {| FieldRecord.id := "r-" ++ stamp;
     FieldRecord.field := "Temp";
     FieldRecord.value := "20";
     FieldRecord.location := "Plot A";
     FieldRecord.timestamp := stamp;
     FieldRecord.user_id := "user-1" |}.

(** Criteria with a single bound set. *)
Definition onlyDateFrom (d : string) : FilterState.t :=
  {| FilterState.field := ""; FilterState.location := "";
     FilterState.dateFrom := d; FilterState.dateTo := "" |}.

Definition onlyDateTo (d : string) : FilterState.t :=
  {| FilterState.field := ""; FilterState.location := "";
     FilterState.dateFrom := ""; FilterState.dateTo := d |}.

Definition row (f v : string) : FieldValue.t :=
  {| FieldValue.field := f; FieldValue.value := v |}.

Definition group (f : string) (n : nat) (v : string) : FieldData.t :=
  {| FieldData.field := f; FieldData.count := n; FieldData.value := v |}.

(* ================================================================= *)
(** ** Component actions: state, awaited calls and thrown values *)

(** What a [throw] carries: a native error, or the error object a call to
    the record store resolved with. *)
Inductive Thrown : Type :=
| NativeError (e : JsError)
| ErrorObject (message : string).

(** The settlement of an awaited promise. *)
Inductive outcome (A : Type) : Type :=
| Done (a : A)
| Raised (x : Thrown).
Arguments Done {A} a.
Arguments Raised {A} x.

Module Act.

Section Monad.

Variable S : Type.

(** An action on a state [S] that completes or throws. *)
Definition t (A : Type) : Type := S -> S * outcome A.

Definition ret {A : Type} (a : A) : t A := fun s => (s, Done a).

Definition bind {A B : Type} (m : t A) (k : A -> t B) : t B :=
  fun s =>
    match m s with
    | (s', Done a) => k a s'
    | (s', Raised x) => (s', Raised x)
    end.

Definition throw {A : Type} (x : Thrown) : t A := fun s => (s, Raised x).

(** [try { m } catch (error) { h }] *)
Definition catch {A : Type} (m : t A) (h : Thrown -> t A) : t A :=
  fun s =>
    match m s with
    | (s', Done a) => (s', Done a)
    | (s', Raised x) => h x s'
    end.

(** [try { m } finally { f }] *)
Definition finally {A : Type} (m : t A) (f : t unit) : t A :=
  fun s =>
    match m s with
    | (s', r) =>
        match f s' with
        | (s'', Done _) => (s'', r)
        | (s'', Raised x) => (s'', Raised x)
        end
    end.

Definition modify (f : S -> S) : t unit := fun s => (f s, Done tt).

(** [await p] for a promise that settles as [o]. *)
Definition await {A : Type} (o : outcome A) : t A := fun s => (s, o).

End Monad.

Arguments ret {S A} a.
Arguments bind {S A B} m k.
Arguments throw {S A} x.
Arguments catch {S A} m h.
Arguments finally {S A} m f.
Arguments modify {S} f.
Arguments await {S A} o.

End Act.

Notation "x <~ c ;; k" := (Act.bind c (fun x => k))
  (at level 61, c at next level, right associativity).
Notation "c ;;; k" := (Act.bind c (fun _ => k))
  (at level 61, right associativity).

(* ================================================================= *)
(** ** Records View: [deleteRecord] *)

Module ActivityLog.

(** A row given to [from('activity_logs').insert]. *)
Record t : Type := {
  user_id : string;
  action : string;
  details : string;
  timestamp : string
}.

End ActivityLog.

(** The calls the Records View issues to the record store. *)
Inductive StoreCall : Type :=
| DeleteRecord (id : string)
| InsertActivity (entry : ActivityLog.t).

Module RecordsActions.

(** The component's [records] and the calls issued so far. *)
Record State : Type := {
  records : list FieldRecord.t;
  calls : list StoreCall
}.

(** What surrounds one call of [deleteRecord]: the answer to [confirm], the
    settlement of the awaited delete (its [error] field), the settlement of
    the awaited insert into [activity_logs], the signed-in user's id and
    [new Date().toISOString()]. *)
Record Env : Type := {
  confirmed : bool;
  deleteResult : outcome (option string);
  insertResult : outcome unit;
  user : option string;
  now : string
}.

Definition issue (c : StoreCall) : Act.t State unit :=
  Act.modify (fun s => {| records := records s; calls := calls s ++ [c] |}).

Definition setRecords (f : list FieldRecord.t -> list FieldRecord.t) : Act.t State unit :=
  Act.modify (fun s => {| records := f (records s); calls := calls s |}).

(** [prev.filter(record => record.id !== id)] *)
Definition without (id : string) (prev : list FieldRecord.t) : list FieldRecord.t :=
  filter (fun record => negb (String.eqb (FieldRecord.id record) id)) prev.

Definition deleteEntry (env : Env) (uid id : string) : ActivityLog.t :=
  {| ActivityLog.user_id := uid;
     ActivityLog.action := "DATA_DELETE";
     ActivityLog.details := "Deleted field record with ID: " ++ id;
     ActivityLog.timestamp := now env |}.

(** [deleteRecord(id)] *)
Definition deleteRecord (env : Env) (id : string) : Act.t State unit :=
  if negb (confirmed env) then Act.ret tt
  else
    Act.catch
      (issue (DeleteRecord id) ;;;
       error <~ Act.await (deleteResult env) ;;
       match error with
       | Some e => Act.throw (ErrorObject e)
       | None => Act.ret tt
       end ;;;
       match user env with
       | Some uid =>
           issue (InsertActivity (deleteEntry env uid id)) ;;;
           Act.await (insertResult env)
       | None => Act.ret tt
       end ;;;
       setRecords (fun prev => without id prev))
      (fun _ => Act.ret tt).

(** The delete reaches [setRecords]. *)
Definition committed (env : Env) : bool :=
  confirmed env &&
  match deleteResult env with
  | Done None =>
      match user env, insertResult env with
      | Some _, Raised _ => false
      | _, _ => true
      end
  | _ => false
  end.

End RecordsActions.

(* ================================================================= *)
(** ** The chat view: [sendMessage] *)

Module Message.

(** [interface Message]; the content is the value put on the transcript
    (a string for every text the view or the function writes), the time
    stamp is the time value of the [Date]. *)
Record t : Type := {
  id : string;
  content : Json;
  isUser : bool;
  timestamp : Z
}.

End Message.

Module ChatLog.

(** A row given to [from('chatbot_logs').insert]; [response] is
    [data.response] as received. *)
Record t : Type := {
  user_id : string;
  message : string;
  response : JsValue.t;
  timestamp : string
}.

End ChatLog.

(** The calls the chat view issues. *)
Inductive ChatCall : Type :=
| Invoke (body : Chatbot.ChatbotRequest)
| InsertChatLog (entry : ChatLog.t).

Module ChatView.

(** [Number.prototype.toString] on an integer. *)
Definition numberToString (z : Z) : string :=
  NilZero.string_of_int (Z.to_int z).

(** The component's state, the calls issued so far and the number of
    clock readings taken. *)
Record State : Type := {
  messages : list Message.t;
  inputValue : string;
  isLoading : bool;
  calls : list ChatCall;
  readings : nat
}.

(** The answer of [supabase.functions.invoke]. *)
Record InvokeResult : Type := {
  data : JsValue.t;
  error : option string
}.

(** What surrounds one call of [sendMessage]: the host's [trim] and
    [toISOString], the clock (its successive readings), the signed-in
    user's id, the configured key, and the settlements of the two awaited
    calls. *)
Record Env : Type := {
  trim : string -> string;
  toISOString : Z -> string;
  clock : nat -> Z;
  user : option string;
  geminiKey : option string;
  invokeResult : outcome InvokeResult;
  insertResult : outcome unit
}.

Definition apology : string :=
  "I apologize, but I encountered an error processing your request.".

Definition troubleConnecting : string :=
  "I'm sorry, but I'm having trouble connecting right now. Please try again later.".

Section Actions.

Variable env : Env.

(** [Date.now()] and the time value of [new Date()]. *)
Definition readClock : Act.t State Z :=
  fun s =>
    ({| messages := messages s; inputValue := inputValue s; isLoading := isLoading s;
        calls := calls s; readings := S (readings s) |},
     Done (clock env (readings s))).

Definition setMessages (f : list Message.t -> list Message.t) : Act.t State unit :=
  Act.modify (fun s =>
    {| messages := f (messages s); inputValue := inputValue s;
       isLoading := isLoading s; calls := calls s; readings := readings s |}).

Definition setInputValue (v : string) : Act.t State unit :=
  Act.modify (fun s =>
    {| messages := messages s; inputValue := v; isLoading := isLoading s;
       calls := calls s; readings := readings s |}).

Definition setIsLoading (b : bool) : Act.t State unit :=
  Act.modify (fun s =>
    {| messages := messages s; inputValue := inputValue s; isLoading := b;
       calls := calls s; readings := readings s |}).

Definition issue (c : ChatCall) : Act.t State unit :=
  Act.modify (fun s =>
    {| messages := messages s; inputValue := inputValue s; isLoading := isLoading s;
       calls := calls s ++ [c]; readings := readings s |}).

(** [data.response]: a TypeError when [data] is [null] or [undefined]. *)
Definition responseOf (d : JsValue.t) : Act.t State JsValue.t :=
  match d with
  | None | Some JNull => Act.throw (NativeError TypeError)
  | Some v => Act.ret (JsValue.getOwn v "response")
  end.

(** The body of [sendMessage] once the guard is passed; [input] and [uid]
    are the [inputValue] and [user.id] the call was made with. *)
Definition exchange (input uid : string) : Act.t State unit :=
  now <~ readClock ;;
  stamp <~ readClock ;;
  let userMessage :=
    {| Message.id := numberToString now; Message.content := JStr input;
       Message.isUser := true; Message.timestamp := stamp |} in
  setMessages (fun prev => (prev ++ [userMessage])%list) ;;;
  setInputValue "" ;;;
  setIsLoading true ;;;
  Act.finally
    (Act.catch
       (issue (Invoke {| Chatbot.message := Some input;
                         Chatbot.user_id := Some uid;
                         Chatbot.apiKey := geminiKey env |}) ;;;
        result <~ Act.await (invokeResult env) ;;
        match error result with
        | Some e => Act.throw (ErrorObject e)
        | None => Act.ret tt
        end ;;;
        now <~ readClock ;;
        response <~ responseOf (data result) ;;
        stamp <~ readClock ;;
        let aiMessage :=
          {| Message.id := numberToString (now + 1);
             Message.content := JsValue.orElse response (JStr apology);
             Message.isUser := false; Message.timestamp := stamp |} in
        setMessages (fun prev => (prev ++ [aiMessage])%list) ;;;
        logged <~ readClock ;;
        issue (InsertChatLog
                 {| ChatLog.user_id := uid; ChatLog.message := input;
                    ChatLog.response := response;
                    ChatLog.timestamp := toISOString env logged |}) ;;;
        Act.await (insertResult env))
       (fun _ =>
          now <~ readClock ;;
          stamp <~ readClock ;;
          let errorMessage :=
            {| Message.id := numberToString (now + 1);
               Message.content := JStr troubleConnecting;
               Message.isUser := false; Message.timestamp := stamp |} in
          setMessages (fun prev => (prev ++ [errorMessage])%list)))
    (setIsLoading false).

(** The guard [!inputValue.trim() || isLoading || !user]. *)
Definition blocked (s : State) : bool :=
  negb (JsString.truthy (trim env (inputValue s)))
  || isLoading s
  || match user env with Some _ => false | None => true end.

(** [sendMessage], on the state the handler was rendered with. *)
Definition sendMessage : Act.t State unit :=
  fun s =>
    if blocked s then (s, Done tt)
    else
      match user env with
      | Some uid => exchange (inputValue s) uid s
      | None => (s, Done tt)
      end.

End Actions.

(** The invoke answered without error and with data to read a response
    from. *)
Definition answered (env : Env) : option JsValue.t :=
  match invokeResult env with
  | Done {| data := Some JNull; error := None |} => None
  | Done {| data := Some v; error := None |} => Some (JsValue.getOwn v "response")
  | _ => None
  end.

End ChatView.

(* ================================================================= *)
(** ** The data collection form: [validateForm] and [handleSubmit] *)

Module NewRecord.

(** The row given to [from('field_records').insert]; the store assigns
    the id. *)
Record t : Type := {
  field : string;
  value : string;
  location : string;
  user_id : string;
  timestamp : string
}.

End NewRecord.

Module FormData.

(** [interface FormData] *)
Record t : Type := {
  field : string;
  value : string;
  location : string
}.

Definition blank : t := {| field := ""; value := ""; location := "" |}.

End FormData.

Module FormErrors.

(** [interface FormErrors]: [None] is an absent key. *)
Record t : Type := {
  field : option string;
  value : option string;
  location : option string
}.

Definition none : t := {| field := None; value := None; location := None |}.

(** [Object.keys(errors).length] *)
Definition size (e : t) : nat :=
  let present (o : option string) : nat :=
    match o with Some _ => 1%nat | None => 0%nat end in
  (present (field e) + present (value e) + present (location e))%nat.

End FormErrors.

(** The calls the form issues to the record store. *)
Inductive FormCall : Type :=
| InsertRecord (row : NewRecord.t)
| InsertEntry (entry : ActivityLog.t).

Module DataCollectionForm.

Record State : Type := {
  formData : FormData.t;
  errors : FormErrors.t;
  loading : bool;
  success : bool;
  calls : list FormCall
}.

(** What surrounds one call of [handleSubmit]: the host's [trim], the
    signed-in user's id, the settlement of the insert into [field_records]
    (its [error] field) and of the insert into [activity_logs], and the two
    readings of [new Date().toISOString()]. *)
Record Env : Type := {
  trim : string -> string;
  user : option string;
  recordResult : outcome (option string);
  entryResult : outcome unit;
  recordedAt : string;
  loggedAt : string
}.

Section Actions.

Variable env : Env.

Definition required (input message : string) : option string :=
  if negb (JsString.truthy (trim env input)) then Some message else None.

(** The [newErrors] of [validateForm]. *)
Definition newErrors (d : FormData.t) : FormErrors.t :=
  {| FormErrors.field := required (FormData.field d) "Field name is required";
     FormErrors.value := required (FormData.value d) "Value is required";
     FormErrors.location := required (FormData.location d) "Location is required" |}.

Definition setErrors (e : FormErrors.t) : Act.t State unit :=
  Act.modify (fun s =>
    {| formData := formData s; errors := e; loading := loading s;
       success := success s; calls := calls s |}).

Definition setFormData (d : FormData.t) : Act.t State unit :=
  Act.modify (fun s =>
    {| formData := d; errors := errors s; loading := loading s;
       success := success s; calls := calls s |}).

Definition setLoading (b : bool) : Act.t State unit :=
  Act.modify (fun s =>
    {| formData := formData s; errors := errors s; loading := b;
       success := success s; calls := calls s |}).

Definition setSuccess (b : bool) : Act.t State unit :=
  Act.modify (fun s =>
    {| formData := formData s; errors := errors s; loading := loading s;
       success := b; calls := calls s |}).

Definition issue (c : FormCall) : Act.t State unit :=
  Act.modify (fun s =>
    {| formData := formData s; errors := errors s; loading := loading s;
       success := success s; calls := (calls s ++ [c])%list |}).

(** [validateForm()], on the form data the handler was rendered with. *)
Definition validateForm (d : FormData.t) : Act.t State bool :=
  setErrors (newErrors d) ;;;
  Act.ret (Nat.eqb (FormErrors.size (newErrors d)) 0).

Definition newRow (d : FormData.t) (uid : string) : NewRecord.t :=
  {| NewRecord.field := trim env (FormData.field d);
     NewRecord.value := trim env (FormData.value d);
     NewRecord.location := trim env (FormData.location d);
     NewRecord.user_id := uid;
     NewRecord.timestamp := recordedAt env |}.

Definition entryFor (d : FormData.t) (uid : string) : ActivityLog.t :=
  {| ActivityLog.user_id := uid;
     ActivityLog.action := "DATA_ENTRY";
     ActivityLog.details :=
       "Added field record: " ++ FormData.field d ++ " = " ++ FormData.value d;
     ActivityLog.timestamp := loggedAt env |}.

(** [handleSubmit]; the timer that hides the success message after three
    seconds is left out. *)
Definition handleSubmit : Act.t State unit :=
  fun s =>
    let d := formData s in
    (valid <~ validateForm d ;;
     if negb valid then Act.ret tt
     else
       match user env with
       | None => Act.ret tt
       | Some uid =>
           setLoading true ;;;
           setSuccess false ;;;
           Act.finally
             (Act.catch
                (issue (InsertRecord (newRow d uid)) ;;;
                 error <~ Act.await (recordResult env) ;;
                 match error with
                 | Some e => Act.throw (ErrorObject e)
                 | None => Act.ret tt
                 end ;;;
                 issue (InsertEntry (entryFor d uid)) ;;;
                 Act.await (entryResult env) ;;;
                 setSuccess true ;;;
                 setFormData FormData.blank ;;;
                 setErrors FormErrors.none)
                (fun _ =>
                   setErrors
                     {| FormErrors.field := Some "Failed to save record. Please try again.";
                        FormErrors.value := None;
                        FormErrors.location := None |}))
             (setLoading false)
       end) s.

(** All three inputs hold something after trimming. *)
Definition complete (d : FormData.t) : bool :=
  JsString.truthy (trim env (FormData.field d))
  && JsString.truthy (trim env (FormData.value d))
  && JsString.truthy (trim env (FormData.location d)).

End Actions.

(** Both inserts went through. *)
Definition saved (env : Env) : bool :=
  match recordResult env, entryResult env with
  | Done None, Done _ => true
  | _, _ => false
  end.

End DataCollectionForm.

(* ================================================================= *)
(** ** Further notions used by the statements *)

(** Every set criterion at once: an unset criterion lets every record
    pass. *)
Definition passes (host : JsDate.Host) (searchTerm : string) (filters : FilterState.t)
    (record : FieldRecord.t) : bool :=
  (negb (JsString.truthy searchTerm) || RecordsView.matchesSearch searchTerm record)
  && (negb (JsString.truthy (FilterState.field filters))
      || RecordsView.matchesField filters record)
  && (negb (JsString.truthy (FilterState.location filters))
      || RecordsView.matchesLocation filters record)
  && (negb (JsString.truthy (FilterState.dateFrom filters))
      || RecordsView.notBefore host filters record)
  && (negb (JsString.truthy (FilterState.dateTo filters))
      || RecordsView.notAfter host filters record).

(** The string holds no occurrence of the character. *)
Fixpoint lacks (c : ascii) (s : string) : bool :=
  match s with
  | EmptyString => true
  | String x s' => negb (Ascii.eqb x c) && lacks c s'
  end.

Definition lineFeed : ascii := ascii_of_nat 10.

(** The five attributes written to the CSV file. *)
Definition exported (r : FieldRecord.t) : list string :=
  [ FieldRecord.id r; FieldRecord.field r; FieldRecord.value r;
    FieldRecord.location r; FieldRecord.timestamp r ].

(** None of the exported attributes holds a comma or a line feed. *)
Definition plainText (r : FieldRecord.t) : bool :=
  forallb (fun s => lacks "," s && lacks lineFeed s) (exported r).

(** The rows whose field name is not inherited from [Object.prototype]. *)
Definition grouped (rows : list FieldValue.t) : list FieldValue.t :=
  filter (fun r => negb (JsObject.inherited (FieldValue.field r))) rows.

(** The numeric value of a group's field name when it is an array index. *)
Definition indexOf (g : FieldData.t) : N :=
  match JsObject.arrayIndex (FieldData.field g) with
  | Some n => n
  | None => 0%N
  end.

(** The answer to the preflight request. *)
Definition preflight : Chatbot.Response :=
  {| Chatbot.status := 200; Chatbot.headers := Chatbot.corsHeaders; Chatbot.body := None |}.


(* ================================================================= *)
(** * Properties *)

(** ** The model on sample inputs *)

Example toLowerCase_sample :
  JsString.toLowerCase "What's the ideal soil pH?" = "what's the ideal soil ph?".
Proof. reflexivity. Qed.

Example includes_sample :
  JsString.includes "what's the ideal soil ph?" "ph" = true /\
  JsString.includes "hello" "help" = false /\
  JsString.includes "hello" "" = true.
Proof. repeat split. Qed.

Example new_Date_date_only :
  JsDate.new JsDate.strictUtcHost "2024-03-05" = Some 1709596800000%Z.
Proof. vm_compute. reflexivity. Qed.

Example new_Date_with_offset :
  JsDate.new JsDate.strictUtcHost "2024-03-05T23:59:00.123456+00:00"
    = Some 1709683140123%Z /\
  JsDate.new JsDate.strictUtcHost "2024-03-06T05:29:00+05:30"
    = Some 1709683140000%Z.
Proof. split; vm_compute; reflexivity. Qed.

Example new_Date_local :
  JsDate.new {| JsDate.LocalTZA := 19800000; JsDate.legacyParse := fun _ => None |}
    "2024-03-06T05:29:00" = Some 1709683140000%Z.
Proof. vm_compute. reflexivity. Qed.

Example new_Date_invalid :
  JsDate.new JsDate.strictUtcHost "2024-13-05" = None /\
  JsDate.new JsDate.strictUtcHost "not-a-dateT23:59:59" = None.
Proof. split; vm_compute; reflexivity. Qed.

Example arrayIndex_sample :
  JsObject.arrayIndex "42" = Some 42%N /\
  JsObject.arrayIndex "0" = Some 0%N /\
  JsObject.arrayIndex "042" = None /\
  JsObject.arrayIndex "4294967295" = None /\
  JsObject.arrayIndex "Temp" = None.
Proof. repeat split; vm_compute; reflexivity. Qed.

Example aiResponse_sample :
  Chatbot.aiResponse
    (JObj [("candidates",
            JArr [JObj [("content",
                         JObj [("parts", JArr [JObj [("text", JStr "Water at dawn.")]])])]])])
    = Normal (JStr "Water at dawn.") /\
  Chatbot.aiResponse (JObj [("candidates", JArr [])]) = Normal (JStr Chatbot.apology) /\
  Chatbot.aiResponse JNull = Throw TypeError.
Proof. repeat split. Qed.

(** ** Strings *)

Section StringFacts.
Import JsString.

Lemma append_nil_r (s : string) : s ++ "" = s.
Proof. induction s as [|c s IH]; simpl; [reflexivity | now rewrite IH]. Qed.

Lemma append_assoc (a b c : string) : (a ++ b) ++ c = a ++ (b ++ c).
Proof. induction a as [|x a IH]; simpl; [reflexivity | now rewrite IH]. Qed.

Lemma startsWith_spec (s t : string) :
  startsWith s t = true <-> exists r, s = t ++ r.
Proof.
  revert s; induction t as [|b t IH]; intros s; simpl.
  - split; [intros _; now exists s | now destruct s].
  - destruct s as [|a s]; simpl.
    + split; [discriminate | intros [r Hr]; discriminate].
    + rewrite andb_true_iff, Ascii.eqb_eq, IH. split.
      * intros [-> [r ->]]. now exists r.
      * intros [r Hr]. injection Hr as -> ->. split; [reflexivity | now exists r].
Qed.

(** [includes] is the substring test. *)
Lemma includes_spec (s t : string) :
  includes s t = true <-> exists l r, s = l ++ t ++ r.
Proof.
  induction s as [|a s IH].
  - cbn [includes]. rewrite orb_false_r, startsWith_spec. split.
    + intros [r Hr]. now exists "", r.
    + intros [l [r Hr]]. destruct l; [now exists r | discriminate].
  - cbn [includes]. rewrite orb_true_iff, startsWith_spec, IH. split.
    + intros [[r Hr] | [l [r Hr]]].
      * now exists "", r.
      * exists (String a l), r. simpl. now rewrite Hr.
    + intros [l [r Hr]]. destruct l as [|x l].
      * left. now exists r.
      * right. simpl in Hr. injection Hr as _ ->. now exists l, r.
Qed.

Lemma lowerAscii_idem (c : ascii) : lowerAscii (lowerAscii c) = lowerAscii c.
Proof. destruct c as [[] [] [] [] [] [] [] []]; reflexivity. Qed.

Lemma toLowerCase_idem (s : string) : toLowerCase (toLowerCase s) = toLowerCase s.
Proof.
  induction s as [|c s IH]; simpl; [reflexivity|].
  now rewrite lowerAscii_idem, IH.
Qed.

Lemma truthy_false (s : string) : truthy s = false <-> s = "".
Proof. destruct s; simpl; split; congruence. Qed.

Lemma truthy_true (s : string) : truthy s = true <-> s <> "".
Proof. destruct s; simpl; split; congruence. Qed.

End StringFacts.

(* ================================================================= *)
(** ** The fallback classifier *)

Section ClassifierFacts.
Import JsString Chatbot.

(** C3. The classifier is the ordered rule list temperature; humidity; soil
    or ph; data or record; help or how; otherwise generic, evaluated top to
    bottom on the lowercased message with the first match winning; two
    messages that differ only in letter case get the same response; "What's
    the ideal soil pH?" gets the soil/pH response, which is not the generic
    one, and "hello" gets the generic response. *)
Theorem generateFallbackResponse_first_match :
  (forall msg, generateFallbackResponse msg = spec_classify msg) /\
  (forall msg msg',
      toLowerCase msg = toLowerCase msg' ->
      generateFallbackResponse msg = generateFallbackResponse msg') /\
  generateFallbackResponse "What's the ideal soil pH?" = soilResponse /\
  soilResponse <> genericResponse /\
  generateFallbackResponse "hello" = genericResponse.
Proof.
  split; [| split; [| split; [| split]]].
  - intros msg. unfold generateFallbackResponse, spec_classify, keywordRules.
    cbn [firstMatch existsb]. rewrite !orb_false_r. reflexivity.
  - intros msg msg' H. unfold generateFallbackResponse. now rewrite H.
  - vm_compute. reflexivity.
  - discriminate.
  - vm_compute. reflexivity.
Qed.

Lemma generateFallbackResponse_first_match_witness :
  generateFallbackResponse "SOIL Ph" = generateFallbackResponse "soil pH".
Proof.
  apply (proj1 (proj2 generateFallbackResponse_first_match)).
  reflexivity.
Defined.

(** C10. The classifier is a total function into six fixed responses: for
    every message the result is one of the six canned strings, which are
    pairwise distinct and non-empty; each of the six is the result for some
    message; equal messages give equal results. *)
Theorem generateFallbackResponse_total :
  (forall msg, In (generateFallbackResponse msg) cannedResponses) /\
  length cannedResponses = 6%nat /\
  NoDup cannedResponses /\
  Forall (fun r => r <> "") cannedResponses /\
  (forall r, In r cannedResponses -> exists msg, generateFallbackResponse msg = r) /\
  (forall msg msg', msg = msg' ->
      generateFallbackResponse msg = generateFallbackResponse msg').
Proof.
  split; [| split; [| split; [| split; [| split]]]].
  - intros msg. unfold generateFallbackResponse, cannedResponses.
    repeat match goal with
           | |- In (if ?c then _ else _) _ => destruct c
           end; simpl; tauto.
  - reflexivity.
  - unfold cannedResponses.
    repeat (constructor; [simpl; intros H;
      repeat (destruct H as [H | H]; [discriminate H |]); exact H |]).
    constructor.
  - unfold cannedResponses. repeat (constructor; [discriminate |]). constructor.
  - intros r Hr. unfold cannedResponses in Hr. simpl in Hr.
    destruct Hr as [<- | [<- | [<- | [<- | [<- | [<- | []]]]]]].
    + exists "temperature". vm_compute. reflexivity.
    + exists "humidity". vm_compute. reflexivity.
    + exists "soil". vm_compute. reflexivity.
    + exists "data". vm_compute. reflexivity.
    + exists "help". vm_compute. reflexivity.
    + exists "". vm_compute. reflexivity.
  - intros msg msg' ->. reflexivity.
Qed.

Lemma generateFallbackResponse_total_witness :
  generateFallbackResponse "hello" = generateFallbackResponse "hello".
Proof.
  apply (proj2 (proj2 (proj2 (proj2 (proj2 generateFallbackResponse_total))))).
  reflexivity.
Defined.

End ClassifierFacts.

(* ================================================================= *)
(** ** The handler *)

Section HandlerFacts.
Import JsString Chatbot.

Variable fetch : string -> GenerateContent -> completion GeminiResponse.

Lemma optTruthy_Some (o : option string) :
  optTruthy o = true -> exists s, o = Some s /\ truthy s = true.
Proof. destruct o as [s|]; simpl; [eauto | discriminate]. Qed.

(** The [try] block, for a body that parses and lacks neither field. *)
Lemma resolve_complete (req : Request) (r : ChatbotRequest) (msg : string) :
  json req = Normal r ->
  lacksField r = false ->
  message r = Some msg ->
  resolve fetch req =
    if negb (optTruthy (apiKey r)) then Normal (fallbackReply msg)
    else
      geminiResponse <-
        fetch (endpoint ++ match apiKey r with Some k => k | None => "" end)
              (geminiRequest msg) ;;
      if negb (ok geminiResponse) then Normal (fallbackReply msg)
      else
        geminiData <- gemini_json geminiResponse ;;
        ai <- aiResponse geminiData ;;
        Normal (reply ai).
Proof.
  intros Hjson Hlacks Hmsg. unfold resolve. rewrite Hjson. cbn [bind].
  unfold lacksField in Hlacks. apply orb_false_iff in Hlacks as [Hm Hu].
  apply negb_false_iff in Hm, Hu.
  apply optTruthy_Some in Hu as [uid [-> Hu]].
  rewrite Hmsg in Hm |- *. cbn [optTruthy] in Hm. rewrite Hm, Hu.
  reflexivity.
Qed.

Lemma resolve_lacking (req : Request) (r : ChatbotRequest) :
  json req = Normal r ->
  lacksField r = true ->
  resolve fetch req = Normal missingFields.
Proof.
  intros Hjson Hlacks. unfold resolve. rewrite Hjson. cbn [bind].
  unfold lacksField in Hlacks.
  destruct (message r) as [msg|], (user_id r) as [uid|]; try reflexivity.
  cbn [optTruthy] in Hlacks. now rewrite Hlacks.
Qed.

Lemma handler_try (req : Request) :
  method req <> "OPTIONS" ->
  handler fetch req = tryCatch (resolve fetch req) (fun _ => errorReply).
Proof.
  intros Hm. unfold handler.
  destruct (String.eqb_spec (method req) "OPTIONS"); [contradiction | reflexivity].
Qed.

(** A payload other than [null] always yields a reply text. *)
Lemma aiResponse_not_null (data : Json) :
  data <> JNull -> exists ai, aiResponse data = Normal ai.
Proof.
  intros Hd. unfold aiResponse.
  destruct data; try contradiction; cbn [JsValue.member bind]; eauto.
Qed.

End HandlerFacts.

(** Counterexample to C1 as stated: a well-formed request whose delegated
    call fails on the network is answered by the [catch] branch, with
    status 500 and an error, not by the fallback reply. *)
Lemma handler_network_failure_is_surfaced :
  let req := Chatbot.post (Some "temperature check") (Some "user-1") (Some "key") in
  Chatbot.lacksField
    {| Chatbot.message := Some "temperature check";
       Chatbot.user_id := Some "user-1";
       Chatbot.apiKey := Some "key" |} = false /\
  Chatbot.handler Chatbot.unreachable req = Chatbot.errorReply /\
  Chatbot.status (Chatbot.handler Chatbot.unreachable req) = 500%Z /\
  Chatbot.handler Chatbot.unreachable req
    <> Chatbot.fallbackReply "temperature check".
Proof.
  cbv zeta. split; [reflexivity | split; [reflexivity | split; [reflexivity |]]].
  intros H. apply (f_equal Chatbot.status) in H. discriminate H.
Qed.

Section ResolverFacts.
Import JsString Chatbot.

(** C1, amended. For a request whose body parses: it is answered with the
    400 "Missing required fields" error when it lacks a message or a user
    identifier; otherwise it is never answered with status 400, and
    - without a credential, or when the endpoint answers with a non-2xx
      status, the answer is the keyword-classified fallback reply;
    - when the call fails on the network, or the 2xx payload is not JSON or
      is [null], the answer is the [catch] branch's status 500 with an
      error and the fixed apology;
    - when the 2xx payload is another JSON value, the answer is a 200 reply
      carrying the first candidate's text, or the fixed apology when that
      text is missing or empty. *)
Theorem handler_outcomes
    (fetch : string -> GenerateContent -> completion GeminiResponse)
    (req : Request) (r : ChatbotRequest) :
  method req <> "OPTIONS" ->
  json req = Normal r ->
  (lacksField r = true -> handler fetch req = missingFields) /\
  (lacksField r = false ->
   status (handler fetch req) <> 400%Z /\
   forall msg, message r = Some msg ->
     (optTruthy (apiKey r) = false -> handler fetch req = fallbackReply msg) /\
     (forall key, apiKey r = Some key -> key <> "" ->
        let call := fetch (endpoint ++ key) (geminiRequest msg) in
        (forall resp, call = Normal resp -> ok resp = false ->
           handler fetch req = fallbackReply msg) /\
        (forall e, call = Throw e -> handler fetch req = errorReply) /\
        (forall resp e, call = Normal resp -> ok resp = true ->
           gemini_json resp = Throw e -> handler fetch req = errorReply) /\
        (forall resp, call = Normal resp -> ok resp = true ->
           gemini_json resp = Normal JNull -> handler fetch req = errorReply) /\
        (forall resp data, call = Normal resp -> ok resp = true ->
           gemini_json resp = Normal data -> data <> JNull ->
           exists ai, aiResponse data = Normal ai /\
                      handler fetch req = reply ai) /\
        (forall resp, call = Normal resp -> ok resp = true ->
           gemini_json resp = Normal (JObj []) ->
           handler fetch req = reply (JStr apology)))).
Proof.
  intros Hmethod Hjson. split.
  - intros Hlacks. rewrite handler_try by assumption.
    now rewrite (resolve_lacking fetch req r Hjson Hlacks).
  - intros Hlacks.
    assert (Hmsg : exists msg, message r = Some msg).
    { unfold lacksField in Hlacks. apply orb_false_iff in Hlacks as [Hm _].
      apply negb_false_iff in Hm.
      destruct (optTruthy_Some _ Hm) as [s [Hs _]]. eauto. }
    split.
    + destruct Hmsg as [msg Hmsg].
      rewrite handler_try by assumption.
      rewrite (resolve_complete fetch req r msg Hjson Hlacks Hmsg).
      destruct (negb (optTruthy (apiKey r))); [discriminate |].
      destruct (fetch _ _) as [resp | e]; cbn [bind tryCatch]; [| discriminate].
      destruct (negb (ok resp)); [discriminate |].
      destruct (gemini_json resp) as [data | e]; cbn [bind tryCatch]; [| discriminate].
      destruct (aiResponse data); cbn [bind tryCatch]; discriminate.
    + intros msg Hm.
      rewrite handler_try by assumption.
      rewrite (resolve_complete fetch req r msg Hjson Hlacks Hm).
      split.
      * intros ->. reflexivity.
      * intros key Hkey Hne call. subst call.
        rewrite Hkey. cbn [optTruthy].
        apply truthy_true in Hne. rewrite Hne. cbn [negb].
        repeat split.
        -- intros resp -> Hok. cbn [bind]. now rewrite Hok.
        -- intros e ->. reflexivity.
        -- intros resp e -> Hok Hj. cbn [bind]. now rewrite Hok, Hj.
        -- intros resp -> Hok Hj. cbn [bind]. now rewrite Hok, Hj.
        -- intros resp data -> Hok Hj Hd. cbn [bind]. rewrite Hok, Hj.
           destruct (aiResponse_not_null data Hd) as [ai Hai].
           exists ai. split; [assumption |]. cbn [negb bind]. now rewrite Hai.
        -- intros resp -> Hok Hj. cbn [bind]. now rewrite Hok, Hj.
Qed.

Lemma handler_outcomes_witness :
  handler unreachable
     (post (Some "temperature check") (Some "user-1") None)
   = fallbackReply "temperature check" /\
  handler unreachable
     (post (Some "temperature check") (Some "user-1") (Some "key"))
   = errorReply /\
  handler unreachable (post (Some "") (Some "user-1") (Some "key"))
   = missingFields.
Proof.
  split; [| split].
  - refine (proj1 (proj2 (proj2 (handler_outcomes unreachable
              (post (Some "temperature check") (Some "user-1") None) _ _ eq_refl)
              eq_refl) "temperature check" eq_refl) eq_refl).
    discriminate.
  - refine (proj1 (proj2 (proj2 (proj2 (proj2 (handler_outcomes unreachable
              (post (Some "temperature check") (Some "user-1") (Some "key")) _ _ eq_refl)
              eq_refl) "temperature check" eq_refl) "key" eq_refl _)) FetchFailed eq_refl).
    discriminate. discriminate.
  - refine (proj1 (handler_outcomes unreachable
              (post (Some "") (Some "user-1") (Some "key")) _ _ eq_refl) eq_refl).
    discriminate.
Defined.

(** C9. Whatever the message, a non-2xx answer of the endpoint gives the
    same response as a request without credential (absent or empty key);
    for "temperature check" with a user identifier, both are the reply
    carrying the temperature response. *)
Theorem non_2xx_same_as_no_credential
    (fetch fetch' : string -> GenerateContent -> completion GeminiResponse)
    (msg uid noKey : option string) (key : string) :
  key <> "" ->
  optTruthy noKey = false ->
  (forall m, msg = Some m ->
     exists resp, fetch (endpoint ++ key) (geminiRequest m) = Normal resp /\
                  ok resp = false) ->
  handler fetch (post msg uid (Some key)) = handler fetch' (post msg uid noKey) /\
  (msg = Some "temperature check" -> optTruthy uid = true ->
   handler fetch (post msg uid (Some key)) = reply (JStr temperatureResponse) /\
   handler fetch' (post msg uid noKey) = reply (JStr temperatureResponse)).
Proof.
  intros Hkey HnoKey Hfetch.
  assert (Hpost : forall k, method (post msg uid k) <> "OPTIONS") by discriminate.
  set (keyed := {| message := msg; user_id := uid; apiKey := Some key |}).
  set (bare := {| message := msg; user_id := uid; apiKey := noKey |}).
  assert (Hfallback : forall m, msg = Some m -> optTruthy uid = true ->
            truthy m = true ->
            handler fetch (post msg uid (Some key)) = fallbackReply m /\
            handler fetch' (post msg uid noKey) = fallbackReply m).
  { intros m Hm Hu Ht.
    assert (Hl : forall k, lacksField {| message := msg; user_id := uid; apiKey := k |}
                           = false).
    { intros k. unfold lacksField. cbn [message user_id]. rewrite Hm, Hu.
      cbn [optTruthy]. now rewrite Ht. }
    rewrite !handler_try by apply Hpost. split.
    - rewrite (resolve_complete fetch (post msg uid (Some key)) keyed m eq_refl (Hl _) Hm).
      cbn [apiKey keyed optTruthy]. apply truthy_true in Hkey. rewrite Hkey.
      cbn [negb]. destruct (Hfetch m Hm) as [resp [-> Hok]].
      cbn [bind]. now rewrite Hok.
    - rewrite (resolve_complete fetch' (post msg uid noKey) bare m eq_refl (Hl _) Hm).
      cbn [apiKey bare]. now rewrite HnoKey. }
  split.
  - destruct (lacksField keyed) eqn:Hl.
    + rewrite !handler_try by apply Hpost.
      rewrite (resolve_lacking fetch (post msg uid (Some key)) keyed eq_refl Hl).
      now rewrite (resolve_lacking fetch' (post msg uid noKey) bare eq_refl Hl).
    + unfold lacksField in Hl. cbn [keyed message user_id] in Hl.
      apply orb_false_iff in Hl as [Hm Hu]. apply negb_false_iff in Hm, Hu.
      destruct (optTruthy_Some _ Hm) as [m [Hmsg Ht]].
      destruct (Hfallback m Hmsg Hu Ht) as [-> ->]. reflexivity.
  - intros Hm Hu. exact (Hfallback "temperature check" Hm Hu eq_refl).
Qed.

Lemma non_2xx_same_as_no_credential_witness :
  handler unavailable (post (Some "temperature check") (Some "user-1") (Some "key"))
   = handler unreachable (post (Some "temperature check") (Some "user-1") None) /\
  handler unavailable (post (Some "temperature check") (Some "user-1") (Some "key"))
   = reply (JStr temperatureResponse).
Proof.
  assert (H := non_2xx_same_as_no_credential unavailable unreachable
                 (Some "temperature check") (Some "user-1") None "key").
  destruct H as [H1 H2].
  - discriminate.
  - reflexivity.
  - intros m _. eexists. split; reflexivity.
  - split; [exact H1 |]. exact (proj1 (H2 eq_refl eq_refl)).
Defined.

End ResolverFacts.

(* ================================================================= *)
(** ** The filter *)

Section SubseqFacts.

Context {A : Type}.

Lemma Subseq_refl (l : list A) : Subseq l l.
Proof. induction l; constructor; assumption. Qed.

Lemma Subseq_filter (p : A -> bool) (l : list A) : Subseq (filter p l) l.
Proof.
  induction l as [|x l IH]; simpl; [constructor |].
  destruct (p x); constructor; assumption.
Qed.

Lemma Subseq_trans (l1 l2 l3 : list A) :
  Subseq l1 l2 -> Subseq l2 l3 -> Subseq l1 l3.
Proof.
  intros H12 H23. revert l1 H12.
  induction H23 as [| x l2 l3 H23 IH | x l2 l3 H23 IH]; intros l1 H12.
  - assumption.
  - constructor. now apply IH.
  - inversion H12; subst; constructor; now apply IH.
Qed.

Lemma Subseq_length (l1 l2 : list A) : Subseq l1 l2 -> (length l1 <= length l2)%nat.
Proof. induction 1; simpl; lia. Qed.

Lemma Subseq_In (l1 l2 : list A) (x : A) : Subseq l1 l2 -> In x l1 -> In x l2.
Proof. induction 1; simpl; intuition. Qed.

(** A subsequence holds no more elements satisfying a test than the list
    it is taken from. *)
Lemma Subseq_count (p : A -> bool) (l1 l2 : list A) :
  Subseq l1 l2 -> (length (filter p l1) <= length (filter p l2))%nat.
Proof. induction 1; simpl; try destruct (p x); simpl; lia. Qed.

End SubseqFacts.

Section FilterFacts.
Import JsString RecordsView.

Variable host : JsDate.Host.

Lemma applyFilters_steps (records : list FieldRecord.t) (searchTerm : string)
    (filters : FilterState.t) :
  applyFilters host records searchTerm filters =
    guarded (truthy (FilterState.dateTo filters)) (notAfter host filters)
     (guarded (truthy (FilterState.dateFrom filters)) (notBefore host filters)
       (guarded (truthy (FilterState.location filters)) (matchesLocation filters)
         (guarded (truthy (FilterState.field filters)) (matchesField filters)
           (guarded (truthy searchTerm) (matchesSearch searchTerm) records)))).
Proof. reflexivity. Qed.

Lemma guarded_Subseq (c : bool) (p : FieldRecord.t -> bool) (l : list FieldRecord.t) :
  Subseq (guarded c p l) l.
Proof. destruct c; [apply Subseq_filter | apply Subseq_refl]. Qed.

Lemma guarded_nil (c : bool) (p : FieldRecord.t -> bool) : guarded c p [] = [].
Proof. now destruct c. Qed.

Lemma filter_none (p : FieldRecord.t -> bool) (l : list FieldRecord.t) :
  (forall r, p r = false) -> filter p l = [].
Proof.
  intros Hp. induction l as [|x l IH]; simpl; [reflexivity |]. now rewrite Hp.
Qed.

(** C7. The result of the filter is a subsequence of the records: the kept
    records stay in their relative order and none is duplicated; in
    particular the result is no longer than the input, every record of the
    result is a record of the input, and no test is passed by more records
    of the result than of the input. *)
Theorem applyFilters_subsequence (records : list FieldRecord.t) (searchTerm : string)
    (filters : FilterState.t) :
  let result := applyFilters host records searchTerm filters in
  Subseq result records /\
  (length result <= length records)%nat /\
  (forall r, In r result -> In r records) /\
  (forall p : FieldRecord.t -> bool,
      (length (filter p result) <= length (filter p records))%nat).
Proof.
  cbv zeta.
  assert (H : Subseq (applyFilters host records searchTerm filters) records).
  { rewrite applyFilters_steps.
    repeat (eapply Subseq_trans; [apply guarded_Subseq |]).
    apply Subseq_refl. }
  split; [exact H | split; [| split]].
  - now apply Subseq_length.
  - intros r. now apply Subseq_In.
  - intros p. now apply Subseq_count.
Qed.

(** C8. With the empty criteria (empty search term, empty field and
    location, no date bounds) the filter returns the records unchanged. *)
Theorem applyFilters_empty_criteria (records : list FieldRecord.t) :
  applyFilters host records "" FilterState.initial = records.
Proof. reflexivity. Qed.

End FilterFacts.

Lemma applyFilters_subsequence_witness :
  In (recordAt "2024-03-05T23:59:00")
     [recordAt "2024-03-05T23:59:00"; recordAt "2024-03-06T00:00:01"].
Proof.
  apply (proj1 (proj2 (proj2
           (applyFilters_subsequence JsDate.strictUtcHost
              [recordAt "2024-03-05T23:59:00"; recordAt "2024-03-06T00:00:01"]
              "" (onlyDateTo "2024-03-05"))))).
  vm_compute. left. reflexivity.
Defined.

(** Counterexample to C2 as stated: with the malformed bound "not-a-date"
    the filter raises nothing; it returns the empty list although the
    record passes the empty criteria. *)
Lemma applyFilters_malformed_date_is_silent :
  JsDate.new JsDate.strictUtcHost "not-a-date" = None /\
  RecordsView.applyFilters JsDate.strictUtcHost
    [recordAt "2024-03-05T23:59:00"] "" (onlyDateFrom "not-a-date") = [] /\
  RecordsView.applyFilters JsDate.strictUtcHost
    [recordAt "2024-03-05T23:59:00"] "" (onlyDateTo "not-a-date") = [] /\
  RecordsView.applyFilters JsDate.strictUtcHost
    [recordAt "2024-03-05T23:59:00"] "" FilterState.initial
    = [recordAt "2024-03-05T23:59:00"].
Proof. repeat split; vm_compute; reflexivity. Qed.

Section DateFacts.
Import JsString RecordsView.

Variable host : JsDate.Host.

(** C2, amended. When [dateFrom] is set and is not a date ([new Date] gives
    the Invalid Date), or [dateTo] is set and [dateTo + 'T23:59:59'] is not
    a date, the filter raises no error: it returns the empty sequence,
    whatever the records and the other criteria. *)
Theorem applyFilters_invalid_date_excludes_all (records : list FieldRecord.t)
    (searchTerm : string) (filters : FilterState.t) :
  (FilterState.dateFrom filters <> "" /\
   JsDate.new host (FilterState.dateFrom filters) = None) \/
  (FilterState.dateTo filters <> "" /\
   JsDate.new host (FilterState.dateTo filters ++ "T23:59:59") = None) ->
  applyFilters host records searchTerm filters = [].
Proof.
  intros H. rewrite applyFilters_steps.
  destruct H as [[Hset Hbad] | [Hset Hbad]]; apply truthy_true in Hset; rewrite Hset.
  - replace (guarded true (notBefore host filters) _) with (@nil FieldRecord.t).
    + apply guarded_nil.
    + symmetry. apply filter_none. intros r. unfold notBefore. rewrite Hbad.
      unfold JsDate.ge. now destruct (JsDate.new host (FieldRecord.timestamp r)).
  - apply filter_none. intros r. unfold notAfter. rewrite Hbad.
    unfold JsDate.le. now destruct (JsDate.new host (FieldRecord.timestamp r)).
Qed.

End DateFacts.

Lemma applyFilters_invalid_date_excludes_all_witness :
  RecordsView.applyFilters JsDate.strictUtcHost
    [recordAt "2024-03-05T23:59:00"; recordAt "2024-03-06T00:00:01"] "Temp"
    (onlyDateFrom "not-a-date") = [].
Proof.
  apply applyFilters_invalid_date_excludes_all.
  left. split; [discriminate | reflexivity].
Defined.

Section EndOfDayFacts.
Import JsString RecordsView.

Variable host : JsDate.Host.

(** A date-time without offset is read in the host's local zone. *)
Lemma new_local (s : string) (stamp : Z) :
  usualHost host ->
  JsDate.parseISO s = Some (stamp, JsDate.Local) ->
  (Z.abs stamp <= 8000000000000000)%Z ->
  JsDate.new host s = Some (stamp - JsDate.LocalTZA host)%Z.
Proof.
  unfold usualHost, JsDate.msPerDay. intros Hhost Hs Hstamp.
  unfold JsDate.new, JsDate.parse. rewrite Hs. cbn [JsDate.utcOf].
  unfold JsDate.TimeClip.
  destruct (Z.leb_spec (Z.abs (stamp - JsDate.LocalTZA host)) 8640000000000000);
    [reflexivity | lia].
Qed.

(** C5. A set [dateTo] keeps exactly the records whose time stamp is not
    after [dateTo + 'T23:59:59'], the last second of that day: every record
    of a result satisfies that bound, and with [dateTo] as the only
    criterion the result is the records satisfying it.  With dateTo =
    "2024-03-05" the record of 2024-03-05T23:59:00 is kept and the record of
    2024-03-06T00:00:01 is dropped. *)
Theorem dateTo_inclusive_end_of_day :
  usualHost host ->
  (forall records searchTerm filters r,
      FilterState.dateTo filters <> "" ->
      In r (applyFilters host records searchTerm filters) ->
      JsDate.le (JsDate.new host (FieldRecord.timestamp r))
                (JsDate.new host (FilterState.dateTo filters ++ "T23:59:59")) = true) /\
  (forall records d,
      d <> "" ->
      applyFilters host records "" (onlyDateTo d) =
      filter (fun r => JsDate.le (JsDate.new host (FieldRecord.timestamp r))
                                 (JsDate.new host (d ++ "T23:59:59")))
             records) /\
  applyFilters host
    [recordAt "2024-03-05T23:59:00"; recordAt "2024-03-06T00:00:01"] ""
    (onlyDateTo "2024-03-05")
  = [recordAt "2024-03-05T23:59:00"].
Proof.
  intros Hhost.
  assert (Honly : forall records d, d <> "" ->
            applyFilters host records "" (onlyDateTo d) =
            filter (fun r => JsDate.le (JsDate.new host (FieldRecord.timestamp r))
                                       (JsDate.new host (d ++ "T23:59:59")))
                   records).
  { intros records d Hd. rewrite applyFilters_steps.
    cbn [onlyDateTo FilterState.dateTo FilterState.dateFrom FilterState.field
         FilterState.location truthy guarded].
    apply truthy_true in Hd. rewrite Hd. reflexivity. }
  split; [| split].
  - intros records searchTerm filters r Hd Hin.
    rewrite applyFilters_steps in Hin. apply truthy_true in Hd. rewrite Hd in Hin.
    cbn [guarded] in Hin. apply filter_In in Hin as [_ Hin]. exact Hin.
  - exact Honly.
  - rewrite Honly by discriminate.
    assert (Hbound : JsDate.new host ("2024-03-05" ++ "T23:59:59")
                     = Some (1709683199000 - JsDate.LocalTZA host)%Z)
      by (apply (new_local _ _ Hhost); [vm_compute; reflexivity | vm_compute; discriminate]).
    assert (Hin : JsDate.new host "2024-03-05T23:59:00"
                  = Some (1709683140000 - JsDate.LocalTZA host)%Z)
      by (apply (new_local _ _ Hhost); [vm_compute; reflexivity | vm_compute; discriminate]).
    assert (Hout : JsDate.new host "2024-03-06T00:00:01"
                   = Some (1709683201000 - JsDate.LocalTZA host)%Z)
      by (apply (new_local _ _ Hhost); [vm_compute; reflexivity | vm_compute; discriminate]).
    cbn [filter recordAt FieldRecord.timestamp].
    rewrite Hbound, Hin, Hout. cbn [JsDate.le].
    destruct (Z.leb_spec (1709683140000 - JsDate.LocalTZA host)
                         (1709683199000 - JsDate.LocalTZA host)); [| lia].
    destruct (Z.leb_spec (1709683201000 - JsDate.LocalTZA host)
                         (1709683199000 - JsDate.LocalTZA host)); [lia |].
    reflexivity.
Qed.

End EndOfDayFacts.

Lemma dateTo_inclusive_end_of_day_witness :
  RecordsView.applyFilters JsDate.strictUtcHost
    [recordAt "2024-03-05T23:59:00"; recordAt "2024-03-06T00:00:01"] ""
    (onlyDateTo "2024-03-05")
  = [recordAt "2024-03-05T23:59:00"].
Proof.
  refine (proj2 (proj2 (dateTo_inclusive_end_of_day JsDate.strictUtcHost _))).
  unfold usualHost. vm_compute. discriminate.
Defined.

(* ================================================================= *)
(** ** CSV export *)

Section CsvFacts.
Import JsString.

Lemma join_snoc (sep x : string) (xs : list string) :
  xs <> [] -> join sep (xs ++ [x])%list = join sep xs ++ sep ++ x.
Proof.
  induction xs as [|y ys IH]; [congruence |]. intros _.
  destruct ys as [|z zs].
  - reflexivity.
  - change (join sep ((y :: z :: zs) ++ [x])%list)
      with (y ++ sep ++ join sep ((z :: zs) ++ [x])%list).
    rewrite IH by discriminate.
    change (join sep (y :: z :: zs)) with (y ++ sep ++ join sep (z :: zs)).
    now rewrite !append_assoc.
Qed.

Lemma csvRow_text (r : FieldRecord.t) :
  RecordsView.csvRow r =
    FieldRecord.id r ++ "," ++ FieldRecord.field r ++ "," ++ FieldRecord.value r
    ++ "," ++ FieldRecord.location r ++ "," ++ FieldRecord.timestamp r.
Proof. reflexivity. Qed.

Lemma dashboard_csv_same (records : list FieldRecord.t) :
  Dashboard.csvContent records = RecordsView.csvContent records.
Proof. reflexivity. Qed.

(** C6. The CSV text of no record is the header line
    ID,Field,Value,Location,Timestamp; one more record at the end appends a
    line feed and that record's five attributes joined by commas, as they
    are (an embedded comma is neither quoted nor escaped), so the header is
    the first line and the rows follow in input order; both export paths
    produce this text, and it depends on the records only, not on the time
    of the export. *)
Theorem csvContent_layout :
  RecordsView.csvContent [] = "ID,Field,Value,Location,Timestamp" /\
  (forall records r,
      RecordsView.csvContent (records ++ [r])%list =
      RecordsView.csvContent records ++ LF ++
        FieldRecord.id r ++ "," ++ FieldRecord.field r ++ "," ++
        FieldRecord.value r ++ "," ++ FieldRecord.location r ++ "," ++
        FieldRecord.timestamp r) /\
  (forall records,
      exists rest,
        RecordsView.csvContent records = "ID,Field,Value,Location,Timestamp" ++ rest /\
        (rest = "" \/ startsWith rest LF = true)) /\
  RecordsView.csvRow
    {| FieldRecord.id := "7"; FieldRecord.field := "Notes";
       FieldRecord.value := "dry, cracked"; FieldRecord.location := "12.5, 77.6";
       FieldRecord.timestamp := "2024-03-05T23:59:00"; FieldRecord.user_id := "u" |}
    = "7,Notes,dry, cracked,12.5, 77.6,2024-03-05T23:59:00" /\
  (forall stringify now records,
      content (Dashboard.exportData stringify now Dashboard.csv records)
      = content (RecordsView.exportFiltered now records)) /\
  (forall now now' records,
      content (RecordsView.exportFiltered now records)
      = content (RecordsView.exportFiltered now' records)) /\
  (forall stringify now now' records,
      content (Dashboard.exportData stringify now Dashboard.csv records)
      = content (Dashboard.exportData stringify now' Dashboard.csv records)).
Proof.
  split; [reflexivity |].
  split.
  { intros records r. unfold RecordsView.csvContent.
    rewrite map_app. cbn [map].
    rewrite (app_comm_cons (map RecordsView.csvRow records)).
    rewrite join_snoc by discriminate.
    now rewrite csvRow_text. }
  split.
  { intros records. unfold RecordsView.csvContent.
    destruct records as [|r records].
    - exists "". split; [reflexivity | now left].
    - exists (LF ++ join LF (map RecordsView.csvRow (r :: records))).
      split; [reflexivity | right; reflexivity]. }
  repeat split; reflexivity.
Qed.

End CsvFacts.

(* ================================================================= *)
(** ** Objects as dictionaries *)

Section ObjectFacts.

Context {V : Type}.
Implicit Types (o : JsObject.t V) (k : string) (v : V).

Lemma getOwn_notin o k : ~ In k (map fst o) -> JsObject.getOwn o k = None.
Proof.
  induction o as [|[k' v'] o IH]; simpl; intros H; [reflexivity |].
  destruct (String.eqb_spec k k'); [exfalso; auto | apply IH; auto].
Qed.

Lemma set_notin o k v : ~ In k (map fst o) -> JsObject.set o k v = (o ++ [(k, v)])%list.
Proof.
  induction o as [|[k' v'] o IH]; simpl; intros H; [reflexivity |].
  destruct (String.eqb_spec k k'); [exfalso; auto | rewrite IH; auto].
Qed.

Lemma getOwn_app_last o k v :
  ~ In k (map fst o) -> JsObject.getOwn (o ++ [(k, v)])%list k = Some v.
Proof.
  induction o as [|[k' v'] o IH]; simpl; intros H.
  - now rewrite String.eqb_refl.
  - destruct (String.eqb_spec k k'); [exfalso; auto | apply IH; auto].
Qed.

Lemma set_app_last o k v0 v :
  ~ In k (map fst o) ->
  JsObject.set (o ++ [(k, v0)])%list k v = (o ++ [(k, v)])%list.
Proof.
  induction o as [|[k' v'] o IH]; simpl; intros H.
  - now rewrite String.eqb_refl.
  - destruct (String.eqb_spec k k'); [exfalso; auto | rewrite IH; auto].
Qed.

Lemma tabulate_keys (g : string -> V) (l : list string) :
  map fst (tabulate g l) = l.
Proof.
  unfold tabulate. rewrite map_map. cbn [fst]. apply map_id.
Qed.

Lemma tabulate_values (g : string -> V) (l : list string) :
  map snd (tabulate g l) = map g l.
Proof. unfold tabulate. now rewrite map_map. Qed.

Lemma getOwn_tabulate (g : string -> V) (l : list string) k :
  In k l -> JsObject.getOwn (tabulate g l) k = Some (g k).
Proof.
  induction l as [|a l IH]; simpl; intros H; [contradiction |].
  destruct (String.eqb_spec k a) as [-> | Hne]; [reflexivity |].
  destruct H as [-> | H]; [congruence | now apply IH].
Qed.

Lemma set_tabulate (g : string -> V) (l : list string) k v :
  NoDup l -> In k l ->
  JsObject.set (tabulate g l) k v
  = tabulate (fun f => if String.eqb f k then v else g f) l.
Proof.
  induction l as [|a l IH]; simpl; intros Hnd H; [contradiction |].
  inversion Hnd as [| ? ? Hnotin Hnd']; subst.
  destruct (String.eqb_spec k a) as [-> | Hne].
  - rewrite String.eqb_refl. f_equal.
    apply map_ext_in. intros f Hf.
    destruct (String.eqb_spec f a) as [-> | _]; [contradiction | reflexivity].
  - destruct H as [-> | H]; [congruence |].
    destruct (String.eqb_spec a k) as [-> | _]; [congruence |].
    f_equal. now apply IH.
Qed.

(** Without array-index keys, [Object.values] follows creation order. *)
Lemma values_plain o :
  Forall (fun k => JsObject.isArrayIndex k = false) (map fst o) ->
  JsObject.values o = map snd o.
Proof.
  intros H. unfold JsObject.values.
  assert (Hi : JsObject.indexed o = [] /\ JsObject.named o = map snd o).
  { induction o as [|[k v] o IH]; [split; reflexivity |].
    simpl in H. inversion H as [| ? ? Hk Ho]; subst.
    destruct (IH Ho) as [IH1 IH2]. cbn [JsObject.indexed JsObject.named].
    unfold JsObject.isArrayIndex in Hk |- *.
    destruct (JsObject.arrayIndex k); [discriminate |].
    split; [assumption | simpl; now rewrite IH2]. }
  destruct Hi as [-> ->]. reflexivity.
Qed.

End ObjectFacts.

(* ================================================================= *)
(** ** Dashboard aggregation *)

Section DashboardFacts.
Import Dashboard.

Lemma mem_In (k : string) (l : list string) : mem k l = true <-> In k l.
Proof.
  unfold mem. rewrite existsb_exists. split.
  - intros [x [Hx Hk]]. apply String.eqb_eq in Hk. now subst.
  - intros H. exists k. split; [assumption | apply String.eqb_refl].
Qed.

Lemma mem_not_In (k : string) (l : list string) : mem k l = false <-> ~ In k l.
Proof.
  rewrite <- mem_In. destruct (mem k l); split; congruence.
Qed.

Lemma mem_cons (k a : string) (l : list string) :
  mem k (a :: l) = String.eqb k a || mem k l.
Proof. reflexivity. Qed.

Lemma mem_filter_other (k a : string) (l : list string) :
  k <> a ->
  mem k (filter (fun f => negb (String.eqb f a)) l) = mem k l.
Proof.
  intros Hne. induction l as [|x l IH]; [reflexivity |]. simpl.
  destruct (String.eqb_spec x a) as [-> | Hx]; simpl.
  - destruct (String.eqb_spec k a); [contradiction | exact IH].
  - now rewrite IH.
Qed.

Lemma In_distinctFields (rows : list FieldValue.t) (f : string) :
  In f (distinctFields rows) <-> In f (map FieldValue.field rows).
Proof.
  induction rows as [|a rows IH]; [reflexivity |]. simpl.
  rewrite filter_In, IH. split.
  - intros [H | [H _]]; auto.
  - intros [H | H]; [now left |].
    destruct (String.eqb_spec f (FieldValue.field a)) as [-> | Hne]; [now left |].
    right. split; [assumption | reflexivity].
Qed.

Lemma NoDup_distinctFields (rows : list FieldValue.t) : NoDup (distinctFields rows).
Proof.
  induction rows as [|a rows IH]; simpl; constructor.
  - rewrite filter_In. intros [_ H]. now rewrite String.eqb_refl in H.
  - now apply NoDup_filter.
Qed.

(** One more row at the end adds its field name last, unless the name has
    been seen. *)
Lemma distinctFields_snoc (rows : list FieldValue.t) (r : FieldValue.t) :
  distinctFields (rows ++ [r]) =
    if mem (FieldValue.field r) (distinctFields rows) then distinctFields rows
    else (distinctFields rows ++ [FieldValue.field r])%list.
Proof.
  induction rows as [|a rows IH]; [reflexivity |].
  cbn [app distinctFields]. rewrite IH.
  rewrite mem_cons.
  destruct (String.eqb_spec (FieldValue.field r) (FieldValue.field a)) as [Heq | Hne]; cbn [orb].
  - destruct (mem (FieldValue.field r) (distinctFields rows)); [reflexivity |].
    rewrite filter_app. cbn [filter]. rewrite Heq, String.eqb_refl. cbn [negb].
    now rewrite app_nil_r.
  - rewrite (mem_filter_other _ _ _ Hne).
    destruct (mem (FieldValue.field r) (distinctFields rows)); [reflexivity |].
    rewrite filter_app. cbn [filter].
    destruct (String.eqb_spec (FieldValue.field r) (FieldValue.field a)); [contradiction |].
    reflexivity.
Qed.

Lemma occurrences_snoc (f : string) (rows : list FieldValue.t) (r : FieldValue.t) :
  occurrences f (rows ++ [r]) =
    (occurrences f rows + if String.eqb (FieldValue.field r) f then 1 else 0)%nat.
Proof.
  unfold occurrences. rewrite filter_app, length_app. cbn [filter].
  now destruct (String.eqb (FieldValue.field r) f).
Qed.

Lemma occurrences_unseen (f : string) (rows : list FieldValue.t) :
  ~ In f (map FieldValue.field rows) -> occurrences f rows = 0%nat.
Proof.
  unfold occurrences. induction rows as [|a rows IH]; simpl; intros H; [reflexivity |].
  destruct (String.eqb_spec (FieldValue.field a) f); [exfalso; auto | apply IH; auto].
Qed.

Lemma firstValue_seen (f : string) (rows : list FieldValue.t) (r : FieldValue.t) :
  In f (map FieldValue.field rows) -> firstValue f (rows ++ [r]) = firstValue f rows.
Proof.
  unfold firstValue. induction rows as [|a rows IH]; simpl; intros H; [contradiction |].
  destruct (String.eqb_spec (FieldValue.field a) f) as [_ | Hne]; [reflexivity |].
  destruct H as [H | H]; [contradiction | now apply IH].
Qed.

Lemma firstValue_unseen (rows : list FieldValue.t) (r : FieldValue.t) :
  ~ In (FieldValue.field r) (map FieldValue.field rows) ->
  firstValue (FieldValue.field r) (rows ++ [r]) = FieldValue.value r.
Proof.
  unfold firstValue. induction rows as [|a rows IH]; simpl; intros H.
  - now rewrite String.eqb_refl.
  - destruct (String.eqb_spec (FieldValue.field a) (FieldValue.field r)); [exfalso; auto | apply IH; auto].
Qed.

(** The groups of [rows] in first-seen order, as a dictionary. *)
Lemma groupOf_snoc_other (rows : list FieldValue.t) (r : FieldValue.t) (f : string) :
  In f (distinctFields rows) -> f <> FieldValue.field r ->
  groupOf (rows ++ [r]) f = groupOf rows f.
Proof.
  intros Hin Hne. unfold groupOf.
  rewrite occurrences_snoc, firstValue_seen by now apply In_distinctFields.
  destruct (String.eqb_spec (FieldValue.field r) f); [congruence |].
  now rewrite Nat.add_0_r.
Qed.

(** One call of the callback on the dictionary of the rows seen so far. *)
Lemma reducer_step (rows : list FieldValue.t) (r : FieldValue.t) :
  JsObject.inherited (FieldValue.field r) = false ->
  reducer (tabulate (groupOf rows) (distinctFields rows)) r
  = tabulate (groupOf (rows ++ [r])) (distinctFields (rows ++ [r])).
Proof.
  intros Hproto. unfold reducer. rewrite distinctFields_snoc.
  destruct (mem (FieldValue.field r) (distinctFields rows)) eqn:Hmem.
  - apply mem_In in Hmem.
    unfold JsObject.get. rewrite (getOwn_tabulate _ _ _ Hmem).
    rewrite (getOwn_tabulate _ _ _ Hmem).
    rewrite set_tabulate by (apply NoDup_distinctFields || assumption).
    unfold tabulate. apply map_ext_in. intros f Hf. f_equal.
    destruct (String.eqb_spec f (FieldValue.field r)) as [-> | Hne].
    + unfold groupOf. cbn [FieldData.field FieldData.count FieldData.value].
      rewrite occurrences_snoc, String.eqb_refl.
      now rewrite firstValue_seen by now apply In_distinctFields.
    + symmetry. now apply groupOf_snoc_other.
  - apply mem_not_In in Hmem.
    assert (Hkeys : ~ In (FieldValue.field r)
                      (map fst (tabulate (groupOf rows) (distinctFields rows))))
      by now rewrite tabulate_keys.
    unfold JsObject.get. rewrite (getOwn_notin _ _ Hkeys), Hproto.
    rewrite (set_notin _ _ _ Hkeys), (getOwn_app_last _ _ _ Hkeys).
    rewrite (set_app_last _ _ _ _ Hkeys).
    cbn [FieldData.field FieldData.count FieldData.value].
    unfold tabulate. rewrite map_app. cbn [map]. f_equal.
    + apply map_ext_in. intros f Hf. f_equal. symmetry.
      apply groupOf_snoc_other; [assumption | congruence].
    + unfold groupOf. rewrite occurrences_snoc, String.eqb_refl.
      rewrite occurrences_unseen by now rewrite <- In_distinctFields.
      now rewrite firstValue_unseen by now rewrite <- In_distinctFields.
Qed.

Lemma groupedData_tabulated (rows : list FieldValue.t) :
  Forall (fun r => JsObject.inherited (FieldValue.field r) = false) rows ->
  groupedData (Some rows) = tabulate (groupOf rows) (distinctFields rows).
Proof.
  unfold groupedData. induction rows as [|r rows IH] using rev_ind; intros H.
  - reflexivity.
  - apply Forall_app in H as [Hrows Hr]. inversion Hr; subst.
    rewrite fold_left_app. cbn [fold_left]. rewrite IH by assumption.
    now apply reducer_step.
Qed.

End DashboardFacts.

(** Counterexample to C4 as stated: field names that are array indices come
    out in ascending numeric order, not in first-seen order. *)
Lemma aggregate_index_names_reordered :
  Dashboard.aggregate [row "2" "a"; row "1" "b"] 5
    = [group "1" 1 "b"; group "2" 1 "a"] /\
  Dashboard.spec_aggregate [row "2" "a"; row "1" "b"] 5
    = [group "2" 1 "a"; group "1" 1 "b"] /\
  Dashboard.aggregate [row "2" "a"; row "1" "b"] 5
    <> Dashboard.spec_aggregate [row "2" "a"; row "1" "b"] 5.
Proof.
  split; [vm_compute; reflexivity | split; [vm_compute; reflexivity |]].
  vm_compute. discriminate.
Qed.

(** A field name inherited from [Object.prototype] reads as truthy before
    any group exists for it: no group is created for such rows. *)
Lemma aggregate_inherited_names_dropped :
  Dashboard.aggregate [row "toString" "x"; row "Temp" "20"] 5
    = [group "Temp" 1 "20"].
Proof. vm_compute. reflexivity. Qed.

Section AggregateFacts.
Import Dashboard.

(** C4, amended. For rows whose field names are plain string keys
    (neither array indices nor names inherited from Object.prototype), the
    aggregation yields one group per distinct field name, in the order in
    which the names are first seen, each with the number of rows of that
    name and the value of the first such row, cut to the first [limit]
    groups; the dashboard uses the limit 5.  On Temp/20, Temp/21,
    Humidity/55 with limit 5 the result is Temp (2, "20"), Humidity
    (1, "55"). *)
Theorem aggregate_first_seen :
  (forall rows limit,
      Forall (fun r => plainKey (FieldValue.field r) = true) rows ->
      aggregate rows limit = spec_aggregate rows limit /\
      recentRecords (Some rows) = spec_aggregate rows 5 /\
      (length (aggregate rows limit) <= limit)%nat) /\
  (forall rows,
      NoDup (distinctFields rows) /\
      forall f, In f (distinctFields rows) <-> In f (map FieldValue.field rows)) /\
  aggregate [row "Temp" "20"; row "Temp" "21"; row "Humidity" "55"] 5
    = [group "Temp" 2 "20"; group "Humidity" 1 "55"].
Proof.
  split; [| split].
  - intros rows limit Hplain.
    assert (Hvalues : JsObject.values (groupedData (Some rows))
                      = map (groupOf rows) (distinctFields rows)).
    { rewrite groupedData_tabulated.
      - rewrite values_plain, tabulate_values; [reflexivity |].
        rewrite tabulate_keys. apply Forall_forall. intros f Hf.
        apply In_distinctFields, in_map_iff in Hf as [r [<- Hr]].
        rewrite Forall_forall in Hplain. specialize (Hplain r Hr).
        unfold plainKey in Hplain. apply andb_true_iff in Hplain as [Hidx _].
        now apply negb_true_iff in Hidx.
      - eapply Forall_impl; [| exact Hplain]. intros r Hr.
        unfold plainKey in Hr. apply andb_true_iff in Hr as [_ Hr].
        now apply negb_true_iff in Hr. }
    unfold aggregate, recentRecords, spec_aggregate. rewrite Hvalues.
    repeat split. rewrite length_firstn. lia.
  - intros rows. split; [apply NoDup_distinctFields |].
    intros f. apply In_distinctFields.
  - vm_compute. reflexivity.
Qed.

Lemma aggregate_first_seen_witness :
  aggregate [row "Soil pH" "6.5"; row "Temp" "20"; row "Soil pH" "6.8"] 1
    = spec_aggregate [row "Soil pH" "6.5"; row "Temp" "20"; row "Soil pH" "6.8"] 1.
Proof.
  refine (proj1 (proj1 aggregate_first_seen _ 1%nat _)).
  repeat constructor.
Defined.

End AggregateFacts.

(* ================================================================= *)
(** ** Further properties of the filter *)

Section FilterLaws.
Import JsString RecordsView.

Variable host : JsDate.Host.

Lemma filter_fuse {A : Type} (p q : A -> bool) (l : list A) :
  filter p (filter q l) = filter (fun x => q x && p x) l.
Proof.
  induction l as [|x l IH]; [reflexivity |]. simpl.
  destruct (q x); simpl; [destruct (p x) |]; now rewrite IH.
Qed.

Lemma filter_all {A : Type} (l : list A) : filter (fun _ => true) l = l.
Proof. induction l as [|x l IH]; simpl; [reflexivity | now rewrite IH]. Qed.

Lemma guarded_as_filter (c : bool) (p : FieldRecord.t -> bool) (l : list FieldRecord.t) :
  guarded c p l = filter (fun r => negb c || p r) l.
Proof. destruct c; simpl; [reflexivity | now rewrite filter_all]. Qed.

Lemma applyFilters_as_filter (records : list FieldRecord.t) (searchTerm : string)
    (filters : FilterState.t) :
  applyFilters host records searchTerm filters
  = filter (passes host searchTerm filters) records.
Proof.
  rewrite applyFilters_steps, !guarded_as_filter, !filter_fuse.
  apply filter_ext. intros r. unfold passes. now rewrite !andb_assoc.
Qed.

(** X1. The criteria are conjunctive: the result is the records that pass
    every set criterion, so a record is shown exactly when it is loaded and
    passes the search term (if any), the field filter (if any), the
    location filter (if any) and both date bounds (if set). *)
Theorem applyFilters_conjunction (records : list FieldRecord.t) (searchTerm : string)
    (filters : FilterState.t) :
  applyFilters host records searchTerm filters
    = filter (passes host searchTerm filters) records /\
  forall r,
    In r (applyFilters host records searchTerm filters) <->
    In r records /\
    (searchTerm <> "" -> matchesSearch searchTerm r = true) /\
    (FilterState.field filters <> "" -> matchesField filters r = true) /\
    (FilterState.location filters <> "" -> matchesLocation filters r = true) /\
    (FilterState.dateFrom filters <> "" -> notBefore host filters r = true) /\
    (FilterState.dateTo filters <> "" -> notAfter host filters r = true).
Proof.
  split; [apply applyFilters_as_filter |].
  intros r. rewrite applyFilters_as_filter, filter_In. unfold passes.
  rewrite !andb_true_iff, !orb_true_iff, !negb_true_iff, !truthy_false.
  assert (Himp : forall (s : string) (b : bool),
             (s = "" \/ b = true) <-> (s <> "" -> b = true)).
  { intros s b. destruct (string_dec s ""); intuition congruence. }
  rewrite !Himp. tauto.
Qed.

(** X2. Filtering is idempotent: filtering a result again with the same
    criteria changes nothing. *)
Theorem applyFilters_idempotent (records : list FieldRecord.t) (searchTerm : string)
    (filters : FilterState.t) :
  applyFilters host (applyFilters host records searchTerm filters) searchTerm filters
  = applyFilters host records searchTerm filters.
Proof.
  rewrite !applyFilters_as_filter, filter_fuse.
  apply filter_ext. intros r. now destruct (passes host searchTerm filters r).
Qed.

(** X3. Filtering works record by record: the result for two lists put end
    to end is the two results put end to end, and no record gives no
    result, whatever the criteria. *)
Theorem applyFilters_app (searchTerm : string) (filters : FilterState.t) :
  applyFilters host [] searchTerm filters = [] /\
  forall records more,
    applyFilters host (records ++ more)%list searchTerm filters
    = (applyFilters host records searchTerm filters
       ++ applyFilters host more searchTerm filters)%list.
Proof.
  split; [now rewrite applyFilters_as_filter |].
  intros records more. rewrite !applyFilters_as_filter. apply filter_app.
Qed.

(** X4. Deleting and filtering commute: removing the records of an id from
    the loaded records and filtering gives the filtered view without the
    records of that id. *)
Theorem applyFilters_without (id : string) (records : list FieldRecord.t)
    (searchTerm : string) (filters : FilterState.t) :
  applyFilters host (RecordsActions.without id records) searchTerm filters
  = RecordsActions.without id (applyFilters host records searchTerm filters).
Proof.
  rewrite !applyFilters_as_filter. unfold RecordsActions.without.
  rewrite !filter_fuse. apply filter_ext. intros r. apply andb_comm.
Qed.

Lemma truthy_toLowerCase (s : string) : truthy (toLowerCase s) = truthy s.
Proof. now destruct s. Qed.

(** X5. The text criteria ignore letter case: a search term and field and
    location filters that differ from others only in the case of ASCII
    letters select the same records. *)
Theorem applyFilters_case_insensitive (records : list FieldRecord.t)
    (searchTerm searchTerm' : string) (filters filters' : FilterState.t) :
  toLowerCase searchTerm = toLowerCase searchTerm' ->
  toLowerCase (FilterState.field filters) = toLowerCase (FilterState.field filters') ->
  toLowerCase (FilterState.location filters)
    = toLowerCase (FilterState.location filters') ->
  FilterState.dateFrom filters = FilterState.dateFrom filters' ->
  FilterState.dateTo filters = FilterState.dateTo filters' ->
  applyFilters host records searchTerm filters
  = applyFilters host records searchTerm' filters'.
Proof.
  intros Hs Hf Hl Hfrom Hto. rewrite !applyFilters_as_filter.
  apply filter_ext. intros r.
  unfold passes, matchesSearch, matchesField, matchesLocation, notBefore, notAfter.
  rewrite <- (truthy_toLowerCase searchTerm), <- (truthy_toLowerCase (FilterState.field filters)),
          <- (truthy_toLowerCase (FilterState.location filters)).
  rewrite Hs, Hf, Hl, Hfrom, Hto.
  now rewrite !truthy_toLowerCase.
Qed.

(** X6. A record whose time stamp is not a date is shown only while no
    date bound is set. *)
Theorem applyFilters_invalid_timestamp (records : list FieldRecord.t)
    (searchTerm : string) (filters : FilterState.t) (r : FieldRecord.t) :
  JsDate.new host (FieldRecord.timestamp r) = None ->
  FilterState.dateFrom filters <> "" \/ FilterState.dateTo filters <> "" ->
  ~ In r (applyFilters host records searchTerm filters).
Proof.
  intros Hbad Hset Hin. rewrite applyFilters_as_filter in Hin.
  apply filter_In in Hin as [_ Hp]. unfold passes in Hp.
  rewrite !andb_true_iff in Hp. destruct Hp as [[_ Hfrom] Hto].
  unfold notBefore, notAfter in *. rewrite Hbad in *. cbn [JsDate.ge JsDate.le] in *.
  rewrite orb_false_r in Hfrom, Hto. apply negb_true_iff in Hfrom, Hto.
  apply truthy_false in Hfrom, Hto. destruct Hset; contradiction.
Qed.

(** X7. The lower bound is the instant 00:00 UTC of [dateFrom], inclusive,
    whatever the host's time zone: with a date-only [dateFrom] as the only
    criterion the records kept are those whose time stamp is a date at or
    after that instant.  A time stamp without offset is read in local time,
    so such a record is kept when its local time is at or after 00:00
    shifted by the zone offset. *)
Theorem dateFrom_utc_midnight (d : string) (start : Z) :
  JsDate.parseISO d = Some (start, JsDate.UTC) ->
  (Z.abs start <= 8640000000000000)%Z ->
  (forall records,
      applyFilters host records "" (onlyDateFrom d) =
      filter (fun r => match JsDate.new host (FieldRecord.timestamp r) with
                       | Some t => (start <=? t)%Z
                       | None => false
                       end) records) /\
  (forall records r stamp,
      usualHost host ->
      JsDate.parseISO (FieldRecord.timestamp r) = Some (stamp, JsDate.Local) ->
      (Z.abs stamp <= 8000000000000000)%Z ->
      (In r (applyFilters host records "" (onlyDateFrom d)) <->
       In r records /\ (start + JsDate.LocalTZA host <= stamp)%Z)).
Proof.
  intros Hd Hstart.
  assert (Hnew : JsDate.new host d = Some start).
  { unfold JsDate.new, JsDate.parse. rewrite Hd. cbn [JsDate.utcOf].
    unfold JsDate.TimeClip.
    destruct (Z.leb_spec (Z.abs start) 8640000000000000); [reflexivity | lia]. }
  assert (Hne : truthy d = true) by (destruct d; [discriminate Hd | reflexivity]).
  assert (Heq : forall records,
      applyFilters host records "" (onlyDateFrom d) =
      filter (fun r => match JsDate.new host (FieldRecord.timestamp r) with
                       | Some t => (start <=? t)%Z
                       | None => false
                       end) records).
  { intros records. rewrite applyFilters_steps.
    cbn [onlyDateFrom FilterState.dateTo FilterState.dateFrom FilterState.field
         FilterState.location truthy guarded].
    rewrite Hne. cbn [guarded]. apply filter_ext. intros r.
    unfold notBefore, onlyDateFrom. cbn [FilterState.dateFrom]. rewrite Hnew.
    reflexivity. }
  split; [exact Heq |].
  intros records r stamp Hhost Hts Hstamp. rewrite Heq, filter_In.
  rewrite (new_local host _ _ Hhost Hts Hstamp), Z.leb_le.
  split; intros [H1 H2]; (split; [assumption | lia]).
Qed.

End FilterLaws.

Lemma applyFilters_conjunction_witness :
  In (recordAt "2024-03-05T23:59:00")
     (RecordsView.applyFilters JsDate.strictUtcHost
        [recordAt "2024-03-05T23:59:00"] "temp" FilterState.initial).
Proof.
  apply (proj2 (applyFilters_conjunction JsDate.strictUtcHost
                  [recordAt "2024-03-05T23:59:00"] "temp" FilterState.initial)).
  split; [left; reflexivity |].
  repeat split; solve [reflexivity | intros H; exfalso; apply H; reflexivity].
Defined.

Lemma applyFilters_case_insensitive_witness :
  RecordsView.applyFilters JsDate.strictUtcHost [recordAt "2024-03-05T23:59:00"]
    "TEMP" FilterState.initial
  = RecordsView.applyFilters JsDate.strictUtcHost [recordAt "2024-03-05T23:59:00"]
    "temp" FilterState.initial.
Proof.
  apply applyFilters_case_insensitive; reflexivity.
Defined.

Lemma applyFilters_invalid_timestamp_witness :
  ~ In (recordAt "yesterday")
       (RecordsView.applyFilters JsDate.strictUtcHost
          [recordAt "yesterday"; recordAt "2024-03-05T23:59:00"] ""
          (onlyDateTo "2024-03-05")).
Proof.
  apply applyFilters_invalid_timestamp; [reflexivity |].
  right. discriminate.
Defined.

Lemma dateFrom_utc_midnight_witness :
  RecordsView.applyFilters JsDate.strictUtcHost
    [recordAt "2024-03-04T23:59:59+00:00"; recordAt "2024-03-05T00:00:00+00:00"] ""
    (onlyDateFrom "2024-03-05")
  = [recordAt "2024-03-05T00:00:00+00:00"].
Proof.
  rewrite (proj1 (dateFrom_utc_midnight JsDate.strictUtcHost "2024-03-05"
                    1709596800000%Z eq_refl ltac:(vm_compute; discriminate))).
  vm_compute. reflexivity.
Defined.

(* ================================================================= *)
(** ** Deleting a record *)

Section DeleteFacts.
Import RecordsActions.

Lemma without_In (id : string) (l : list FieldRecord.t) (r : FieldRecord.t) :
  In r (without id l) <-> In r l /\ FieldRecord.id r <> id.
Proof.
  unfold without. rewrite filter_In, negb_true_iff.
  destruct (String.eqb_spec (FieldRecord.id r) id); intuition congruence.
Qed.

Ltac run_delete env :=
  unfold deleteRecord, committed;
  destruct (confirmed env), (deleteResult env) as [[e|]|x], (user env) as [uid|],
           (insertResult env) as [[]|y];
  cbn.

(** X8. [deleteRecord] never throws and changes the loaded records in one
    step or not at all: when the user confirms, the store reports no error
    and the activity log insert (made when a user is signed in) does not
    reject, every record of that id is removed and all other records stay
    in their order; in every other case the records are left as they
    were. *)
Theorem deleteRecord_all_or_nothing (env : Env) (id : string) (s : State) :
  let s' := fst (deleteRecord env id s) in
  snd (deleteRecord env id s) = Done tt /\
  records s' = (if committed env then without id (records s) else records s) /\
  Subseq (records s') (records s) /\
  (committed env = true ->
   forall r, In r (records s') <-> In r (records s) /\ FieldRecord.id r <> id).
Proof.
  cbv zeta.
  assert (H : snd (deleteRecord env id s) = Done tt /\
              records (fst (deleteRecord env id s))
              = (if committed env then without id (records s) else records s)).
  { run_delete env; split; reflexivity. }
  destruct H as [Hdone Hrec]. rewrite Hrec.
  split; [assumption | split; [reflexivity | split]].
  - destruct (committed env); [apply Subseq_filter | apply Subseq_refl].
  - intros ->. intros r. apply without_In.
Qed.

Lemma deleteRecord_all_or_nothing_witness :
  In (recordAt "2024-03-05T23:59:00")
     (records (fst (deleteRecord
        {| confirmed := true; deleteResult := Done None;
           insertResult := Done tt; user := Some "user-1";
           now := "2024-03-06T08:00:00.000Z" |}
        "r-2024-03-06T00:00:01"
        {| records := [recordAt "2024-03-05T23:59:00"; recordAt "2024-03-06T00:00:01"];
           calls := [] |}))).
Proof.
  apply (proj2 (proj2 (proj2 (deleteRecord_all_or_nothing
           {| confirmed := true; deleteResult := Done None;
              insertResult := Done tt; user := Some "user-1";
              now := "2024-03-06T08:00:00.000Z" |}
           "r-2024-03-06T00:00:01"
           {| records := [recordAt "2024-03-05T23:59:00"; recordAt "2024-03-06T00:00:01"];
              calls := [] |}))) eq_refl (recordAt "2024-03-05T23:59:00")).
  split; [left; reflexivity | discriminate].
Defined.

(** X9. The calls [deleteRecord] issues: none when the user declines;
    otherwise first the delete of that id and no other delete; the
    DATA_DELETE activity entry is inserted only after the store reported no
    error on the delete, for the signed-in user, and names the deleted id;
    earlier calls are kept. *)
Theorem deleteRecord_calls (env : Env) (id : string) (s : State) :
  exists issued,
    calls (fst (deleteRecord env id s)) = (calls s ++ issued)%list /\
    (confirmed env = false -> issued = []) /\
    (confirmed env = true -> exists rest, issued = DeleteRecord id :: rest) /\
    (forall i, In (DeleteRecord i) issued -> i = id) /\
    (forall entry, In (InsertActivity entry) issued ->
       deleteResult env = Done None /\
       exists uid, user env = Some uid /\ entry = deleteEntry env uid id /\
                   ActivityLog.action entry = "DATA_DELETE").
Proof.
  run_delete env;
    match goal with
    | |- context [((calls s ++ [?a]) ++ [?b])%list] =>
        exists [a; b]; rewrite <- app_assoc
    | |- context [(calls s ++ [?a])%list] => exists [a]
    | |- _ => exists []; rewrite ?app_nil_r
    end;
    (split; [reflexivity |]);
    (split; [try discriminate; reflexivity |]);
    (split; [try discriminate; intros _; eexists; reflexivity |]);
    (split; [intros i Hi; cbn in Hi; intuition congruence |]);
    intros entry Hin; cbn in Hin;
    repeat match goal with
           | H : _ \/ _ |- _ => destruct H
           | H : False |- _ => contradiction
           | H : DeleteRecord _ = InsertActivity _ |- _ => discriminate H
           | H : InsertActivity _ = InsertActivity _ |- _ => injection H as <-
           end;
    (split; [reflexivity | exists uid; split; [reflexivity | split; reflexivity]]).
Qed.

End DeleteFacts.

Lemma deleteRecord_calls_witness :
  exists issued,
    RecordsActions.calls
      (fst (RecordsActions.deleteRecord
              {| RecordsActions.confirmed := false;
                 RecordsActions.deleteResult := Done None;
                 RecordsActions.insertResult := Done tt;
                 RecordsActions.user := Some "user-1";
                 RecordsActions.now := "2024-03-06T08:00:00.000Z" |}
              "r-1"
              {| RecordsActions.records := []; RecordsActions.calls := [] |}))
    = issued /\ issued = [].
Proof.
  destruct (deleteRecord_calls
              {| RecordsActions.confirmed := false;
                 RecordsActions.deleteResult := Done None;
                 RecordsActions.insertResult := Done tt;
                 RecordsActions.user := Some "user-1";
                 RecordsActions.now := "2024-03-06T08:00:00.000Z" |}
              "r-1"
              {| RecordsActions.records := []; RecordsActions.calls := [] |})
    as [issued [Hc [Hno _]]].
  exists issued. split; [exact Hc | apply Hno; reflexivity].
Defined.

(* ================================================================= *)
(** ** What the CSV text determines *)

Section CsvLossless.
Import JsString.

Lemma append_inj_l (a x y : string) : a ++ x = a ++ y -> x = y.
Proof.
  induction a as [|c a IH]; simpl; intros H; [assumption |].
  injection H as H. now apply IH.
Qed.

Lemma lacks_append (c : ascii) (a b : string) :
  lacks c (a ++ b) = lacks c a && lacks c b.
Proof.
  induction a as [|x a IH]; simpl; [reflexivity |].
  now rewrite IH, andb_assoc.
Qed.

Lemma lacks_no_split (c : ascii) (a a' t : string) :
  lacks c a = true -> a <> a' ++ String c t.
Proof.
  intros Ha ->. rewrite lacks_append in Ha. cbn [lacks] in Ha.
  rewrite Ascii.eqb_refl in Ha. cbn in Ha. now rewrite andb_false_r in Ha.
Qed.

(** A text is cut at the first separator in one way only. *)
Lemma split_unique (c : ascii) (a a' r r' : string) :
  lacks c a = true -> lacks c a' = true ->
  a ++ String c r = a' ++ String c r' -> a = a' /\ r = r'.
Proof.
  revert a'. induction a as [|x a IH]; intros [|x' a']; simpl; intros Ha Ha' H.
  - injection H as ->. now split.
  - injection H as <- _. rewrite Ascii.eqb_refl in Ha'. discriminate.
  - injection H as -> _. rewrite Ascii.eqb_refl in Ha. discriminate.
  - injection H as -> H.
    apply andb_true_iff in Ha as [_ Ha]. apply andb_true_iff in Ha' as [_ Ha'].
    destruct (IH a' Ha Ha' H) as [-> ->]. now split.
Qed.

Lemma join_cons2 (sep x y : string) (l : list string) :
  join sep (x :: y :: l) = x ++ sep ++ join sep (y :: l).
Proof. reflexivity. Qed.

Lemma join_LF_inj (xs ys : list string) :
  Forall (fun s => lacks lineFeed s = true) xs ->
  Forall (fun s => lacks lineFeed s = true) ys ->
  xs <> [] -> ys <> [] ->
  join LF xs = join LF ys -> xs = ys.
Proof.
  intros Hxs. revert ys.
  induction Hxs as [|x xs Hx Hxs IH]; intros ys Hys Hne Hne' H; [congruence |].
  destruct Hys as [|y ys Hy Hys]; [congruence |].
  destruct xs as [|x2 xs], ys as [|y2 ys].
  - simpl in H. now subst.
  - rewrite join_cons2 in H. cbn [join] in H.
    exfalso. exact (lacks_no_split _ _ _ _ Hx H).
  - rewrite join_cons2 in H. cbn [join] in H.
    exfalso. exact (lacks_no_split _ _ _ _ Hy (eq_sym H)).
  - rewrite !join_cons2 in H.
    destruct (split_unique lineFeed x y _ _ Hx Hy H) as [-> H'].
    f_equal. apply IH; [assumption | discriminate | discriminate | exact H'].
Qed.

Lemma plainText_fields (r : FieldRecord.t) :
  plainText r = true ->
  Forall (fun s => lacks "," s = true /\ lacks lineFeed s = true) (exported r).
Proof.
  unfold plainText. rewrite forallb_forall, Forall_forall.
  intros H s Hs. now apply andb_true_iff, H.
Qed.

Lemma csvRow_no_line_feed (r : FieldRecord.t) :
  plainText r = true -> lacks lineFeed (RecordsView.csvRow r) = true.
Proof.
  intros H. apply plainText_fields in H. unfold exported in H.
  repeat match goal with
         | H : Forall _ (_ :: _) |- _ => inversion H; subst; clear H
         end.
  rewrite csvRow_text, !lacks_append.
  repeat match goal with
         | H : _ /\ _ |- _ => destruct H as [_ ->]
         end.
  reflexivity.
Qed.

Lemma csvRow_inj (r r' : FieldRecord.t) :
  plainText r = true -> plainText r' = true ->
  RecordsView.csvRow r = RecordsView.csvRow r' -> exported r = exported r'.
Proof.
  intros H H' Heq. apply plainText_fields in H, H'. unfold exported in *.
  repeat match goal with
         | H : Forall _ (_ :: _) |- _ => inversion H; subst; clear H
         end.
  repeat match goal with
         | H : _ /\ _ |- _ => destruct H as [? _]
         end.
  rewrite !csvRow_text in Heq.
  repeat match type of Heq with
         | ?a ++ "," ++ ?b = ?a' ++ "," ++ ?b' =>
             apply (split_unique "," a a' b b') in Heq as [? Heq];
               [| assumption | assumption]
         end.
  congruence.
Qed.

(** X10. The CSV text is lossless on plain text: two record lists whose
    exported attributes hold no comma and no line feed, and that give the
    same CSV text, agree on the five exported attributes, row by row.
    Without that condition the text is ambiguous: two records that differ
    in value and location can give the same file. *)
Theorem csvContent_lossless_on_plain_text :
  (forall rs rs',
      forallb plainText rs = true -> forallb plainText rs' = true ->
      RecordsView.csvContent rs = RecordsView.csvContent rs' ->
      map exported rs = map exported rs') /\
  (exists r r',
      exported r <> exported r' /\
      RecordsView.csvContent [r] = RecordsView.csvContent [r']).
Proof.
  split.
  - intros rs rs' Hp Hp' Heq.
    assert (Hrows : map RecordsView.csvRow rs = map RecordsView.csvRow rs').
    { assert (Hlf : forall l, forallb plainText l = true ->
                Forall (fun s => lacks lineFeed s = true) (map RecordsView.csvRow l)).
      { intros l Hl. rewrite forallb_forall in Hl. apply Forall_forall.
        intros s Hs. apply in_map_iff in Hs as [r [<- Hr]].
        apply csvRow_no_line_feed. now apply Hl. }
      assert (Hnil : RecordsView.csvContent [] = join "," RecordsView.csvHeaders ++ "")
        by reflexivity.
      assert (Hcons : forall a l, RecordsView.csvContent (a :: l)
                = join "," RecordsView.csvHeaders
                  ++ LF ++ join LF (map RecordsView.csvRow (a :: l)))
        by reflexivity.
      destruct rs as [|r rs], rs' as [|r' rs'].
      - reflexivity.
      - rewrite Hnil, Hcons in Heq. apply append_inj_l in Heq. discriminate.
      - rewrite Hnil, Hcons in Heq. apply append_inj_l in Heq. discriminate.
      - rewrite !Hcons in Heq. apply append_inj_l, append_inj_l in Heq.
        apply (join_LF_inj (map RecordsView.csvRow (r :: rs))
                           (map RecordsView.csvRow (r' :: rs')));
          [now apply Hlf | now apply Hlf | discriminate | discriminate | exact Heq]. }
    clear Heq. revert rs' Hp' Hrows.
    induction rs as [|r rs IH]; intros [|r' rs'] Hp' Hrows; try discriminate;
      [reflexivity |].
    cbn [map forallb] in *. injection Hrows as Hrow Hrows.
    apply andb_true_iff in Hp as [Hr Hp]. apply andb_true_iff in Hp' as [Hr' Hp'].
    f_equal; [now apply csvRow_inj | now apply IH].
  - exists {| FieldRecord.id := "1"; FieldRecord.field := "Notes";
              FieldRecord.value := "dry,cracked"; FieldRecord.location := "Plot A";
              FieldRecord.timestamp := "2024-03-05T23:59:00";
              FieldRecord.user_id := "u" |},
           {| FieldRecord.id := "1"; FieldRecord.field := "Notes";
              FieldRecord.value := "dry"; FieldRecord.location := "cracked,Plot A";
              FieldRecord.timestamp := "2024-03-05T23:59:00";
              FieldRecord.user_id := "u" |}.
    split; [discriminate | reflexivity].
Qed.

Lemma csvContent_lossless_on_plain_text_witness :
  map exported [recordAt "2024-03-05T23:59:00"] = map exported [recordAt "2024-03-05T23:59:00"].
Proof.
  apply (proj1 csvContent_lossless_on_plain_text); reflexivity.
Defined.

Lemma beforeT_date (date time : string) :
  lacks "T" date = true -> beforeT (date ++ String "T" time) = date.
Proof.
  induction date as [|c date IH]; simpl; intros H; [reflexivity |].
  apply andb_true_iff in H as [Hc H]. apply negb_true_iff in Hc.
  rewrite Hc. now rewrite IH.
Qed.

(** X11. The download is named after the date of the export: with the
    clock reading date, "T", time (the date holding no "T"), the Records
    View offers filtered_records_<date>.csv and the dashboard
    field_data_<date>.csv or .json, with the MIME type of the format. *)
Theorem export_file_names (date time : string) (stringify : list FieldRecord.t -> string)
    (records : list FieldRecord.t) :
  lacks "T" date = true ->
  let now := date ++ "T" ++ time in
  download (RecordsView.exportFiltered now records)
    = "filtered_records_" ++ date ++ ".csv" /\
  mimeType (RecordsView.exportFiltered now records) = "text/csv" /\
  download (Dashboard.exportData stringify now Dashboard.csv records)
    = "field_data_" ++ date ++ ".csv" /\
  mimeType (Dashboard.exportData stringify now Dashboard.csv records) = "text/csv" /\
  download (Dashboard.exportData stringify now Dashboard.json records)
    = "field_data_" ++ date ++ ".json" /\
  mimeType (Dashboard.exportData stringify now Dashboard.json records)
    = "application/json" /\
  content (Dashboard.exportData stringify now Dashboard.json records)
    = stringify records.
Proof.
  intros H. cbv zeta.
  unfold RecordsView.exportFiltered, Dashboard.exportData.
  change (date ++ "T" ++ time) with (date ++ String "T" time).
  rewrite (beforeT_date _ _ H). repeat split.
Qed.

Lemma export_file_names_witness :
  download (RecordsView.exportFiltered ("2024-03-06" ++ "T" ++ "08:15:00.000Z") [])
    = "filtered_records_" ++ "2024-03-06" ++ ".csv".
Proof.
  apply (export_file_names "2024-03-06" "08:15:00.000Z" (fun _ => "") []).
  reflexivity.
Defined.

End CsvLossless.

(* ================================================================= *)
(** ** The groups of the dashboard, for every input *)

Section GroupFacts.
Import Dashboard.

Lemma grouped_snoc (rows : list FieldValue.t) (r : FieldValue.t) :
  grouped (rows ++ [r]) =
    (grouped rows ++ if JsObject.inherited (FieldValue.field r) then [] else [r])%list.
Proof.
  unfold grouped. rewrite filter_app. cbn [filter].
  now destruct (JsObject.inherited (FieldValue.field r)).
Qed.

Lemma grouped_field (rows : list FieldValue.t) (f : string) :
  In f (distinctFields (grouped rows)) ->
  JsObject.inherited f = false /\ In f (map FieldValue.field rows).
Proof.
  intros H. apply In_distinctFields, in_map_iff in H as [r [<- Hr]].
  unfold grouped in Hr. apply filter_In in Hr as [Hin Hr].
  apply negb_true_iff in Hr. split; [assumption | now apply in_map].
Qed.

(** A row whose field name is inherited leaves the dictionary as it is. *)
Lemma reducer_inherited (acc : JsObject.t FieldData.t) (r : FieldValue.t) :
  JsObject.inherited (FieldValue.field r) = true ->
  JsObject.getOwn acc (FieldValue.field r) = None ->
  reducer acc r = acc.
Proof.
  intros Hproto Hown. unfold reducer, JsObject.get. now rewrite Hown, Hproto, Hown.
Qed.

Lemma groupedData_any (rows : list FieldValue.t) :
  groupedData (Some rows)
  = tabulate (groupOf (grouped rows)) (distinctFields (grouped rows)).
Proof.
  unfold groupedData. induction rows as [|r rows IH] using rev_ind; [reflexivity |].
  rewrite fold_left_app. cbn [fold_left]. rewrite IH, grouped_snoc.
  destruct (JsObject.inherited (FieldValue.field r)) eqn:Hproto.
  - rewrite app_nil_r. apply reducer_inherited; [assumption |].
    apply getOwn_notin. rewrite tabulate_keys. intros Hin.
    apply grouped_field in Hin as [Hin _]. congruence.
  - now apply reducer_step.
Qed.

Lemma occurrences_grouped (rows : list FieldValue.t) (f : string) :
  JsObject.inherited f = false -> occurrences f (grouped rows) = occurrences f rows.
Proof.
  intros Hf. unfold occurrences, grouped. rewrite filter_fuse. f_equal.
  apply filter_ext. intros r.
  destruct (String.eqb_spec (FieldValue.field r) f) as [-> | _];
    [now rewrite Hf | apply andb_false_r].
Qed.

Lemma firstValue_grouped (rows : list FieldValue.t) (f : string) :
  JsObject.inherited f = false -> firstValue f (grouped rows) = firstValue f rows.
Proof.
  intros Hf. unfold firstValue, grouped.
  induction rows as [|r rows IH]; [reflexivity |]. cbn [filter find].
  destruct (String.eqb_spec (FieldValue.field r) f) as [Heq | Hne].
  - rewrite Heq, Hf. cbn [negb find]. rewrite <- Heq at 1.
    now rewrite String.eqb_refl.
  - destruct (negb (JsObject.inherited (FieldValue.field r))); [| exact IH].
    cbn [find]. destruct (String.eqb_spec (FieldValue.field r) f); [contradiction | exact IH].
Qed.

Lemma groupOf_grouped (rows : list FieldValue.t) (f : string) :
  JsObject.inherited f = false -> groupOf (grouped rows) f = groupOf rows f.
Proof.
  intros Hf. unfold groupOf. now rewrite occurrences_grouped, firstValue_grouped.
Qed.

(** The groups before the cut, in the order of the dictionary's keys. *)
Lemma groupedData_groups (rows : list FieldValue.t) :
  map snd (groupedData (Some rows))
  = map (groupOf rows) (distinctFields (grouped rows)).
Proof.
  rewrite groupedData_any, tabulate_values. apply map_ext_in.
  intros f Hf. apply groupOf_grouped. now apply grouped_field in Hf.
Qed.

End GroupFacts.

Section ValuesFacts.

Context {V : Type}.

Lemma insertIndexed_Permutation (n : N) (v : V) (l : list (N * V)) :
  Permutation (JsObject.insertIndexed V n v l) ((n, v) :: l).
Proof.
  induction l as [|[m w] l IH]; cbn [JsObject.insertIndexed]; [reflexivity |].
  destruct (n <=? m)%N; [reflexivity |].
  rewrite IH. apply perm_swap.
Qed.

Lemma insertIndexed_Sorted (n : N) (v : V) (l : list (N * V)) :
  Sorted N.le (map fst l) -> Sorted N.le (map fst (JsObject.insertIndexed V n v l)).
Proof.
  induction l as [|[m w] l IH]; cbn [JsObject.insertIndexed map fst]; intros Hs.
  - repeat constructor.
  - destruct (N.leb_spec n m) as [Hle | Hgt]; cbn [map fst].
    + constructor; [assumption | constructor; assumption].
    + inversion Hs as [| ? ? Hs' Hhd]; subst. constructor; [now apply IH |].
      destruct l as [|[m' w'] l]; cbn [JsObject.insertIndexed map fst].
      * constructor. lia.
      * inversion Hhd; subst.
        destruct (n <=? m')%N; cbn [map fst]; constructor; [lia | assumption].
Qed.

Lemma indexed_Sorted (o : JsObject.t V) : Sorted N.le (map fst (JsObject.indexed o)).
Proof.
  induction o as [|[k v] o IH]; cbn [JsObject.indexed]; [constructor |].
  destruct (JsObject.arrayIndex k); [now apply insertIndexed_Sorted | assumption].
Qed.

(** Each indexed entry comes from a property whose key is that index. *)
Lemma indexed_from (o : JsObject.t V) (n : N) (v : V) :
  In (n, v) (JsObject.indexed o) ->
  exists k, In (k, v) o /\ JsObject.arrayIndex k = Some n.
Proof.
  induction o as [|[k w] o IH]; cbn [JsObject.indexed]; [contradiction |].
  destruct (JsObject.arrayIndex k) as [m|] eqn:Hk.
  - intros Hin.
    apply (Permutation_in _ (insertIndexed_Permutation m w _)) in Hin.
    destruct Hin as [Heq | Hin].
    + injection Heq as <- <-. exists k. split; [now left | assumption].
    + destruct (IH Hin) as [k' [Hk' Hidx]]. exists k'. split; [now right | assumption].
  - intros Hin. destruct (IH Hin) as [k' [Hk' Hidx]]. exists k'.
    split; [now right | assumption].
Qed.

(** [Object.values] lists every property once. *)
Lemma values_Permutation (o : JsObject.t V) :
  Permutation (JsObject.values o) (map snd o).
Proof.
  unfold JsObject.values.
  induction o as [|[k v] o IH]; cbn [JsObject.indexed JsObject.named map snd];
    [reflexivity |].
  unfold JsObject.isArrayIndex. destruct (JsObject.arrayIndex k) as [n|].
  - rewrite (Permutation_map snd (insertIndexed_Permutation n v _)).
    cbn [map snd app]. now constructor.
  - rewrite <- Permutation_middle. now constructor.
Qed.

Lemma named_tabulate (g : string -> V) (l : list string) :
  JsObject.named (tabulate g l)
  = map g (filter (fun k => negb (JsObject.isArrayIndex k)) l).
Proof.
  induction l as [|k l IH]; [reflexivity |].
  cbn [tabulate map JsObject.named filter]. fold (tabulate g l).
  destruct (JsObject.isArrayIndex k); cbn [negb map]; now rewrite IH.
Qed.

End ValuesFacts.

Section GroupTheorems.
Import Dashboard.

Lemma list_sum_Permutation (l l' : list nat) :
  Permutation l l' -> list_sum l = list_sum l'.
Proof. induction 1; simpl; lia. Qed.

Lemma list_sum_firstn (n : nat) (l : list nat) : (list_sum (firstn n l) <= list_sum l)%nat.
Proof.
  revert n. induction l as [|x l IH]; intros [|n]; simpl; try lia.
  specialize (IH n). lia.
Qed.

Lemma In_firstn {A : Type} (n : nat) (l : list A) (x : A) :
  In x (firstn n l) -> In x l.
Proof.
  intros H. rewrite <- (firstn_skipn n l). apply in_or_app. now left.
Qed.

Lemma NoDup_firstn {A : Type} (n : nat) (l : list A) : NoDup l -> NoDup (firstn n l).
Proof.
  intros H. rewrite <- (firstn_skipn n l) in H. now apply NoDup_app_remove_r in H.
Qed.

Lemma list_sum_cons (x : nat) (l : list nat) :
  list_sum (x :: l) = (x + list_sum l)%nat.
Proof. reflexivity. Qed.

Lemma occurrences_cons (f : string) (a : FieldValue.t) (rows : list FieldValue.t) :
  occurrences f (a :: rows) =
    ((if String.eqb (FieldValue.field a) f then 1 else 0) + occurrences f rows)%nat.
Proof.
  unfold occurrences. cbn [filter].
  now destruct (String.eqb (FieldValue.field a) f).
Qed.

(** Summing over the names other than [k] leaves out the rows of [k]. *)
Lemma sum_without_name (g : string -> nat) (k : string) (l : list string) :
  NoDup l ->
  list_sum (map g l)
  = ((if mem k l then g k else 0)
     + list_sum (map g (filter (fun f => negb (String.eqb f k)) l)))%nat.
Proof.
  induction l as [|x l IH]; intros Hnd; [reflexivity |].
  inversion Hnd as [| ? ? Hx Hnd']; subst.
  rewrite mem_cons. cbn [map filter]. rewrite list_sum_cons, (IH Hnd').
  destruct (String.eqb_spec x k) as [-> | Hne].
  - rewrite String.eqb_refl. cbn [orb negb].
    apply mem_not_In in Hx. rewrite Hx. lia.
  - destruct (String.eqb_spec k x); [congruence |].
    cbn [orb negb map]. rewrite list_sum_cons. lia.
Qed.

(** The rows of each name, added over the distinct names, are all rows. *)
Lemma sum_occurrences (rows : list FieldValue.t) :
  list_sum (map (fun f => occurrences f rows) (distinctFields rows)) = length rows.
Proof.
  induction rows as [|a rows IH]; [reflexivity |].
  cbn [distinctFields map length]. rewrite list_sum_cons, occurrences_cons.
  rewrite String.eqb_refl.
  replace (map (fun f => occurrences f (a :: rows))
             (filter (fun f => negb (String.eqb f (FieldValue.field a)))
                     (distinctFields rows)))
    with (map (fun f => occurrences f rows)
             (filter (fun f => negb (String.eqb f (FieldValue.field a)))
                     (distinctFields rows))).
  - pose proof (sum_without_name (fun f => occurrences f rows) (FieldValue.field a)
                  (distinctFields rows) (NoDup_distinctFields rows)) as Hsplit.
    destruct (mem (FieldValue.field a) (distinctFields rows)) eqn:Hmem.
    + lia.
    + apply mem_not_In in Hmem. rewrite In_distinctFields in Hmem.
      rewrite (occurrences_unseen _ _ Hmem). lia.
  - apply map_ext_in. intros f Hf. apply filter_In in Hf as [_ Hf].
    apply negb_true_iff in Hf. rewrite occurrences_cons.
    destruct (String.eqb_spec (FieldValue.field a) f) as [<- | _]; [| reflexivity].
    now rewrite String.eqb_refl in Hf.
Qed.

Lemma firstValue_of_row (rows : list FieldValue.t) (f : string) :
  In f (map FieldValue.field rows) ->
  exists r, In r rows /\ FieldValue.field r = f /\ firstValue f rows = FieldValue.value r.
Proof.
  unfold firstValue. induction rows as [|a rows IH]; simpl; intros H; [contradiction |].
  destruct (String.eqb_spec (FieldValue.field a) f) as [Heq | Hne].
  - exists a. auto.
  - destruct H as [H | H]; [contradiction |].
    destruct (IH H) as [r [Hr [Hf Hv]]]. exists r. auto.
Qed.

Lemma occurrences_seen (rows : list FieldValue.t) (f : string) :
  In f (map FieldValue.field rows) -> (1 <= occurrences f rows)%nat.
Proof.
  unfold occurrences. induction rows as [|a rows IH]; simpl; intros H; [contradiction |].
  destruct (String.eqb_spec (FieldValue.field a) f); simpl; [lia |].
  destruct H as [H | H]; [contradiction | now apply IH].
Qed.

(** X12. For every input, the groups before the cut are exactly one group
    per distinct field name that is not inherited from Object.prototype,
    each with the number of rows of that name and the value of the first
    such row; they are listed with the array-index names first, in
    ascending numeric order, followed by the other names in first-seen
    order. *)
Theorem groups_order (rows : list FieldValue.t) :
  let groups := JsObject.values (groupedData (Some rows)) in
  Permutation groups (map (groupOf rows) (distinctFields (grouped rows))) /\
  exists front,
    groups = (front ++
              map (groupOf rows)
                  (filter (fun f => negb (JsObject.isArrayIndex f))
                          (distinctFields (grouped rows))))%list /\
    Forall (fun g => JsObject.isArrayIndex (FieldData.field g) = true) front /\
    Sorted N.le (map indexOf front).
Proof.
  cbv zeta. split.
  - rewrite values_Permutation, groupedData_groups. reflexivity.
  - exists (map snd (JsObject.indexed (groupedData (Some rows)))).
    assert (Hfrom : forall n g,
              In (n, g) (JsObject.indexed (groupedData (Some rows))) ->
              JsObject.arrayIndex (FieldData.field g) = Some n).
    { intros n g Hin. apply indexed_from in Hin as [k [Hk Hidx]].
      rewrite groupedData_any in Hk. unfold tabulate in Hk.
      apply in_map_iff in Hk as [f [Heq _]]. injection Heq as -> <-. exact Hidx. }
    split; [| split].
    + unfold JsObject.values. f_equal.
      rewrite groupedData_any, named_tabulate. apply map_ext_in.
      intros f Hf. apply filter_In in Hf as [Hf _].
      apply groupOf_grouped. now apply grouped_field in Hf.
    + apply Forall_forall. intros g Hg. apply in_map_iff in Hg as [[n g'] [<- Hin]].
      cbn [snd]. unfold JsObject.isArrayIndex. now rewrite (Hfrom _ _ Hin).
    + replace (map indexOf (map snd (JsObject.indexed (groupedData (Some rows)))))
        with (map fst (JsObject.indexed (groupedData (Some rows))));
        [apply indexed_Sorted |].
      rewrite map_map. apply map_ext_in. intros [n g] Hin. cbn [fst snd].
      unfold indexOf. now rewrite (Hfrom _ _ Hin).
Qed.

(** X13. The counts add up: before the cut the counts of all groups sum to
    the number of rows whose field name is not inherited from
    Object.prototype, and the counts shown after the cut never exceed the
    number of rows. *)
Theorem group_counts_sum (rows : list FieldValue.t) :
  list_sum (map FieldData.count (JsObject.values (groupedData (Some rows))))
    = length (grouped rows) /\
  forall limit,
    (list_sum (map FieldData.count (aggregate rows limit)) <= length rows)%nat.
Proof.
  assert (Hsum : list_sum (map FieldData.count
                             (JsObject.values (groupedData (Some rows))))
                 = length (grouped rows)).
  { rewrite (list_sum_Permutation _ _
               (Permutation_map FieldData.count (values_Permutation _))).
    rewrite groupedData_any, tabulate_values, map_map.
    cbn [groupOf FieldData.count]. apply sum_occurrences. }
  split; [exact Hsum |].
  intros limit. unfold aggregate. rewrite <- firstn_map.
  eapply Nat.le_trans; [apply list_sum_firstn |].
  rewrite Hsum. unfold grouped. apply filter_length_le.
Qed.

(** X14. Whatever the rows and the limit, the groups shown have pairwise
    distinct field names, at most [limit] of them (5 on the dashboard, none
    when the query gave no data); each group names a field of some row,
    counts at least one row, namely the rows of that name, and shows the
    value of a row of that name. *)
Theorem aggregate_groups_sound (rows : list FieldValue.t) (limit : nat) :
  NoDup (map FieldData.field (aggregate rows limit)) /\
  (length (aggregate rows limit) <= limit)%nat /\
  (forall fieldData, (length (recentRecords fieldData) <= 5)%nat) /\
  recentRecords None = [] /\
  forall g, In g (aggregate rows limit) ->
    (1 <= FieldData.count g)%nat /\
    FieldData.count g = occurrences (FieldData.field g) rows /\
    exists r, In r rows /\ FieldValue.field r = FieldData.field g /\
              FieldValue.value r = FieldData.value g.
Proof.
  split; [| split; [| split; [| split]]].
  - unfold aggregate. rewrite <- firstn_map. apply NoDup_firstn.
    apply (Permutation_NoDup
             (Permutation_sym (Permutation_map FieldData.field (values_Permutation _)))).
    rewrite groupedData_any, tabulate_values, map_map. cbn [groupOf FieldData.field].
    rewrite map_id. apply NoDup_distinctFields.
  - unfold aggregate. rewrite length_firstn. lia.
  - intros fieldData. unfold recentRecords. rewrite length_firstn. lia.
  - reflexivity.
  - intros g Hg. unfold aggregate in Hg. apply In_firstn in Hg.
    apply (Permutation_in _ (values_Permutation _)) in Hg.
    rewrite groupedData_groups in Hg. apply in_map_iff in Hg as [f [<- Hf]].
    apply grouped_field in Hf as [_ Hf]. cbn [groupOf FieldData.count FieldData.field
                                                FieldData.value].
    split; [now apply occurrences_seen | split; [reflexivity |]].
    destruct (firstValue_of_row rows f Hf) as [r [Hr [Hfr Hv]]].
    exists r. repeat split; [assumption | assumption | now rewrite Hv].
Qed.

Lemma aggregate_groups_sound_witness :
  (1 <= FieldData.count (group "1" 1 "b"))%nat.
Proof.
  apply (proj2 (proj2 (proj2 (proj2
           (aggregate_groups_sound [row "2" "a"; row "toString" "x"; row "1" "b"] 1%nat))))).
  vm_compute. left. reflexivity.
Defined.

End GroupTheorems.

(* ================================================================= *)
(** ** Further properties of the handler *)

Section HandlerLaws.
Import JsString Chatbot.

Variable fetch : string -> GenerateContent -> completion GeminiResponse.

(** Every path of the handler ends in one of four responses. *)
Lemma handler_cases (req : Request) :
  (method req = "OPTIONS" /\ handler fetch req = preflight) \/
  (method req <> "OPTIONS" /\
   (handler fetch req = missingFields \/
    handler fetch req = errorReply \/
    exists ai, handler fetch req = reply ai)).
Proof.
  unfold handler. destruct (String.eqb_spec (method req) "OPTIONS") as [Hm | Hm];
    [left; now split |].
  right. split; [assumption |]. unfold resolve.
  destruct (json req) as [r | e]; cbn [bind tryCatch]; [| now right; left].
  destruct (message r) as [msg|]; [| now left].
  destruct (user_id r) as [uid|]; [| now left].
  destruct (negb (truthy msg) || negb (truthy uid)); [now left |].
  destruct (negb (optTruthy (apiKey r)));
    [right; right; eexists; reflexivity |].
  destruct (fetch _ _) as [resp | e]; cbn [bind tryCatch]; [| now right; left].
  destruct (negb (ok resp)); [right; right; eexists; reflexivity |].
  destruct (gemini_json resp) as [data | e]; cbn [bind tryCatch]; [| now right; left].
  destruct (aiResponse data) as [ai | e]; cbn [bind tryCatch]; [| now right; left].
  right. right. now exists ai.
Qed.

(** X15. Whatever the request and the network, the response has status
    200, 400 or 500 and carries the CORS headers first; unless the request
    is the OPTIONS preflight, its body is a JSON object sent as
    application/json, with a [response] member and no [error] member when
    the status is 200, and with an [error] message otherwise. *)
Theorem handler_response_shape (req : Request) :
  let resp := handler fetch req in
  (status resp = 200 \/ status resp = 400 \/ status resp = 500)%Z /\
  (exists more, headers resp = (corsHeaders ++ more)%list) /\
  (method req <> "OPTIONS" ->
   exists members,
     body resp = Some (JObj members) /\
     In ("Content-Type", "application/json") (headers resp) /\
     (status resp = 200%Z ->
      JsValue.assoc "error" members = None /\
      exists ai, JsValue.assoc "response" members = Some ai) /\
     (status resp <> 200%Z ->
      exists text, JsValue.assoc "error" members = Some (JStr text))).
Proof.
  cbv zeta.
  destruct (handler_cases req) as [[Hm H] | [Hm [H | [H | [ai H]]]]].
  - rewrite H. split; [now left |]. split; [exists []; reflexivity |].
    intros Hne. contradiction.
  - rewrite H. split; [right; now left |].
    split; [eexists; reflexivity |]. intros _. eexists.
    split; [reflexivity |]. split; [cbn; tauto |].
    split; [discriminate |]. intros _. eexists. reflexivity.
  - rewrite H. split; [right; now right |].
    split; [eexists; reflexivity |]. intros _. eexists.
    split; [reflexivity |]. split; [cbn; tauto |].
    split; [discriminate |]. intros _. eexists. reflexivity.
  - rewrite H. split; [now left |].
    split; [eexists; reflexivity |]. intros _. eexists.
    split; [reflexivity |]. split; [cbn; tauto |].
    split; [intros _; split; [reflexivity | eexists; reflexivity] |].
    intros Hne. now contradiction Hne.
Qed.

End HandlerLaws.

Lemma handler_response_shape_witness :
  exists members,
    Chatbot.body (Chatbot.handler Chatbot.unreachable
                    (Chatbot.post (Some "hello") (Some "user-1") (Some "key")))
      = Some (JObj members) /\
    exists text, JsValue.assoc "error" members = Some (JStr text).
Proof.
  destruct (proj2 (proj2 (handler_response_shape Chatbot.unreachable
              (Chatbot.post (Some "hello") (Some "user-1") (Some "key")))))
    as [members [Hb [_ [_ Herr]]]].
  - discriminate.
  - exists members. split; [exact Hb |]. apply Herr. discriminate.
Defined.

Section NetworkFacts.
Import JsString Chatbot.

(** X16. The endpoint is consulted only for a complete request with a
    credential: the OPTIONS preflight gets the empty 200 answer whatever
    the body, a body that cannot be parsed gets the 500 error answer, and a
    request that lacks a field or has no credential gets the same response
    whatever the network does. *)
Theorem handler_without_network
    (fetch fetch' : string -> GenerateContent -> completion GeminiResponse)
    (req : Request) :
  (method req = "OPTIONS" -> handler fetch req = preflight) /\
  (method req <> "OPTIONS" ->
   forall e, json req = Throw e -> handler fetch req = errorReply) /\
  (forall r, json req = Normal r ->
     lacksField r = true \/ optTruthy (apiKey r) = false ->
     handler fetch req = handler fetch' req).
Proof.
  split; [| split].
  - intros Hm. unfold handler. now rewrite Hm.
  - intros Hm e He. rewrite handler_try by assumption.
    unfold resolve. now rewrite He.
  - intros r Hr Hcase. unfold handler.
    destruct (String.eqb (method req) "OPTIONS"); [reflexivity |].
    destruct (lacksField r) eqn:Hl.
    + now rewrite (resolve_lacking fetch req r Hr Hl),
                  (resolve_lacking fetch' req r Hr Hl).
    + destruct Hcase as [Hc | Hkey]; [discriminate |].
      assert (Hmsg : exists msg, message r = Some msg).
      { unfold lacksField in Hl. apply orb_false_iff in Hl as [Hm _].
        apply negb_false_iff in Hm. destruct (optTruthy_Some _ Hm) as [m [Hm' _]]. eauto. }
      destruct Hmsg as [msg Hmsg].
      rewrite (resolve_complete fetch req r msg Hr Hl Hmsg),
              (resolve_complete fetch' req r msg Hr Hl Hmsg).
      now rewrite Hkey.
Qed.

Lemma handler_without_network_witness :
  handler unreachable (post (Some "hello") (Some "user-1") (Some ""))
  = handler unavailable (post (Some "hello") (Some "user-1") (Some "")).
Proof.
  refine (proj2 (proj2 (handler_without_network unreachable unavailable
            (post (Some "hello") (Some "user-1") (Some "")))) _ eq_refl _).
  right. reflexivity.
Defined.



End NetworkFacts.

(* ================================================================= *)
(** ** The chat view *)

Section ChatFacts.
Import ChatView.

Variable env : Env.

Lemma blocked_user (s : State) :
  blocked env s = false -> exists uid, user env = Some uid.
Proof.
  unfold blocked. destruct (user env) as [uid|]; [eauto |].
  now rewrite orb_true_r.
Qed.

Ltac run_exchange :=
  unfold exchange, answered;
  destruct (invokeResult env) as [[[[| | | | |]|] [e|]]|x];
  destruct (insertResult env) as [[]|y];
  cbn.

(** X18. [sendMessage] never throws.  While the input is blank after
    trimming, a request is pending or nobody is signed in, it changes
    nothing.  Otherwise it clears the input, ends with the loading flag
    off, and only appends to the transcript: first the user's message with
    the input as typed, then one assistant message, which carries the
    function's response (the fixed apology when that response is missing
    or empty) when the invoke answered without error, and the fixed
    "trouble connecting" text otherwise; a third message, again "trouble
    connecting", follows only when the insert into the chat log
    rejects. *)
Theorem sendMessage_transcript (s : State) :
  let s' := fst (sendMessage env s) in
  snd (sendMessage env s) = Done tt /\
  (blocked env s = true -> s' = s) /\
  (blocked env s = false ->
   inputValue s' = "" /\ isLoading s' = false /\
   exists userMessage reply extra,
     messages s' = (messages s ++ userMessage :: reply :: extra)%list /\
     Message.content userMessage = JStr (inputValue s) /\
     Message.isUser userMessage = true /\
     Message.isUser reply = false /\
     Message.content reply =
       match answered env with
       | Some response => JsValue.orElse response (JStr apology)
       | None => JStr troubleConnecting
       end /\
     (extra = [] \/
      exists again x,
        extra = [again] /\ insertResult env = Raised x /\
        Message.content again = JStr troubleConnecting /\
        Message.isUser again = false)).
Proof.
  cbv zeta. unfold sendMessage.
  destruct (blocked env s) eqn:Hb.
  - split; [reflexivity | split; [reflexivity | discriminate]].
  - destruct (blocked_user s Hb) as [uid ->].
    split; [| split; [discriminate | intros _]].
    + run_exchange; reflexivity.
    + run_exchange;
        (split; [reflexivity | split; [reflexivity |]]);
        match goal with
        | |- context [(((messages s ++ [?a]) ++ [?b]) ++ [?c])%list] =>
            exists a, b, [c]; rewrite <- !app_assoc
        | |- context [((messages s ++ [?a]) ++ [?b])%list] =>
            exists a, b, []; rewrite <- !app_assoc
        end;
        (split; [reflexivity |]); (split; [reflexivity |]);
        (split; [reflexivity |]); (split; [reflexivity |]);
        (split; [reflexivity |]);
        first [ left; reflexivity
              | right; eexists; eexists;
                split; [reflexivity | split; [reflexivity | split; reflexivity]] ].
Qed.

(** X19. The calls of [sendMessage] once the guard is passed: the chatbot
    function is invoked exactly once, with the input as typed, the user's
    id and the configured key; the exchange is then inserted into the chat
    log exactly when the invoke answered without error and with data, and
    the row holds the input as typed and the response as received, even
    where the transcript shows the apology instead. *)
Theorem sendMessage_calls (s : State) :
  blocked env s = false ->
  exists uid,
    user env = Some uid /\
    calls (fst (sendMessage env s)) =
      (calls s ++
       Invoke {| Chatbot.message := Some (inputValue s);
                 Chatbot.user_id := Some uid;
                 Chatbot.apiKey := geminiKey env |} ::
       match answered env with
       | Some response =>
           [InsertChatLog
              {| ChatLog.user_id := uid; ChatLog.message := inputValue s;
                 ChatLog.response := response;
                 ChatLog.timestamp := toISOString env (clock env (readings s + 4)) |}]
       | None => []
       end)%list.
Proof.
  intros Hb. unfold sendMessage. rewrite Hb.
  destruct (blocked_user s Hb) as [uid Hu]. rewrite Hu.
  exists uid. split; [reflexivity |].
  replace (readings s + 4)%nat with (S (S (S (S (readings s))))) by lia.
  run_exchange; rewrite <- ?app_assoc; reflexivity.
Qed.

End ChatFacts.

Lemma sendMessage_transcript_witness :
  ChatView.inputValue
    (fst (ChatView.sendMessage
            {| ChatView.trim := fun s => s; ChatView.toISOString := fun _ => "";
               ChatView.clock := fun n => Z.of_nat n;
               ChatView.user := Some "user-1"; ChatView.geminiKey := None;
               ChatView.invokeResult :=
                 Done {| ChatView.data := Some (JObj [("response", JStr "Hi")]);
                         ChatView.error := None |};
               ChatView.insertResult := Done tt |}
            {| ChatView.messages := []; ChatView.inputValue := "hello";
               ChatView.isLoading := false; ChatView.calls := [];
               ChatView.readings := 0 |})) = "".
Proof.
  refine (proj1 (proj2 (proj2 (sendMessage_transcript _ _)) _)).
  reflexivity.
Defined.

Lemma sendMessage_calls_witness :
  exists uid,
    Some "user-1" = Some uid /\
    length (ChatView.calls
      (fst (ChatView.sendMessage
            {| ChatView.trim := fun s => s; ChatView.toISOString := fun _ => "";
               ChatView.clock := fun n => Z.of_nat n;
               ChatView.user := Some "user-1"; ChatView.geminiKey := None;
               ChatView.invokeResult :=
                 Done {| ChatView.data := Some (JObj [("response", JStr "Hi")]);
                         ChatView.error := None |};
               ChatView.insertResult := Done tt |}
            {| ChatView.messages := []; ChatView.inputValue := "hello";
               ChatView.isLoading := false; ChatView.calls := [];
               ChatView.readings := 0 |}))) = 2%nat.
Proof.
  destruct (sendMessage_calls
            {| ChatView.trim := fun s => s; ChatView.toISOString := fun _ => "";
               ChatView.clock := fun n => Z.of_nat n;
               ChatView.user := Some "user-1"; ChatView.geminiKey := None;
               ChatView.invokeResult :=
                 Done {| ChatView.data := Some (JObj [("response", JStr "Hi")]);
                         ChatView.error := None |};
               ChatView.insertResult := Done tt |}
            {| ChatView.messages := []; ChatView.inputValue := "hello";
               ChatView.isLoading := false; ChatView.calls := [];
               ChatView.readings := 0 |} eq_refl) as [uid [Hu Hc]].
  exists uid. split; [exact Hu |]. rewrite Hc. reflexivity.
Defined.

(* ================================================================= *)
(** ** The data collection form *)

Section FormFacts.
Import DataCollectionForm.

Variable env : Env.

Lemma newErrors_size (d : FormData.t) :
  Nat.eqb (FormErrors.size (newErrors env d)) 0 = complete env d.
Proof.
  unfold newErrors, FormErrors.size, complete, required.
  cbn [FormErrors.field FormErrors.value FormErrors.location].
  destruct (JsString.truthy (trim env (FormData.field d))),
           (JsString.truthy (trim env (FormData.value d))),
           (JsString.truthy (trim env (FormData.location d))); reflexivity.
Qed.

Ltac run_submit s :=
  unfold handleSubmit, validateForm, saved;
  cbn [Act.bind Act.modify Act.ret setErrors];
  rewrite newErrors_size;
  destruct (complete env (formData s)) eqn:Hc; cbn [negb];
  destruct (user env) as [uid|];
  destruct (recordResult env) as [[e|]|x];
  destruct (entryResult env) as [[]|y];
  cbn.

(** X20. A record is sent to the store only from a complete form of a
    signed-in user, and at most once per submit: the row holds the three
    inputs as trimmed, none of them empty, and the user's id.  The
    DATA_ENTRY activity entry is sent only after the store accepted the
    record, and describes the field and value as typed. *)
Theorem handleSubmit_calls (s : State) :
  exists issued,
    calls (fst (handleSubmit env s)) = (calls s ++ issued)%list /\
    (complete env (formData s) = false \/ user env = None -> issued = []) /\
    (forall uid, complete env (formData s) = true -> user env = Some uid ->
       exists rest, issued = InsertRecord (newRow env (formData s) uid) :: rest /\
                    forall row, ~ In (InsertRecord row) rest) /\
    (forall row, In (InsertRecord row) issued ->
       NewRecord.field row <> "" /\ NewRecord.value row <> "" /\
       NewRecord.location row <> "" /\
       NewRecord.field row = trim env (FormData.field (formData s)) /\
       NewRecord.value row = trim env (FormData.value (formData s)) /\
       NewRecord.location row = trim env (FormData.location (formData s)) /\
       user env = Some (NewRecord.user_id row)) /\
    (forall entry, In (InsertEntry entry) issued ->
       recordResult env = Done None /\
       ActivityLog.action entry = "DATA_ENTRY" /\
       ActivityLog.details entry =
         "Added field record: " ++ FormData.field (formData s) ++ " = "
         ++ FormData.value (formData s)).
Proof.
  assert (Hrow : forall uid, complete env (formData s) = true ->
            NewRecord.field (newRow env (formData s) uid) <> "" /\
            NewRecord.value (newRow env (formData s) uid) <> "" /\
            NewRecord.location (newRow env (formData s) uid) <> "").
  { intros uid Hc. unfold complete in Hc.
    apply andb_true_iff in Hc as [Hc Hl]. apply andb_true_iff in Hc as [Hf Hv].
    cbn [newRow NewRecord.field NewRecord.value NewRecord.location].
    now rewrite <- !truthy_true. }
  run_submit s;
    match goal with
    | |- context [((calls s ++ [?a]) ++ [?b])%list] =>
        exists [a; b]; rewrite <- app_assoc
    | |- context [(calls s ++ [?a])%list] => exists [a]
    | |- _ => exists []; rewrite ?app_nil_r
    end;
    (split; [reflexivity |]);
    (split; [intros [H | H]; try discriminate H; reflexivity |]);
    (split; [intros uid' Hc' Hu';
             first [ discriminate Hc' | discriminate Hu'
                   | injection Hu' as <-; eexists; split; [reflexivity |];
                     intros row Hin; cbn in Hin; intuition discriminate ] |]);
    (split;
     [ intros row Hin; cbn in Hin;
       repeat match goal with
              | H : _ \/ _ |- _ => destruct H
              | H : False |- _ => contradiction
              | H : InsertEntry _ = InsertRecord _ |- _ => discriminate H
              | H : InsertRecord _ = InsertRecord _ |- _ => injection H as <-
              end;
       destruct (Hrow uid eq_refl) as [H1 [H2 H3]];
       repeat split; assumption
     | intros entry Hin; cbn in Hin;
       repeat match goal with
              | H : _ \/ _ |- _ => destruct H
              | H : False |- _ => contradiction
              | H : InsertRecord _ = InsertEntry _ |- _ => discriminate H
              | H : InsertEntry _ = InsertEntry _ |- _ => injection H as <-
              end;
       repeat split ]).
Qed.

(** X21. [handleSubmit] never throws and ends with the loading flag off
    whenever it got past validation with a user.  With an incomplete form
    it only sets the messages of the blank inputs.  When both inserts went
    through, the form is cleared, the errors are cleared and the success
    flag is set; when either failed, the inputs are kept as typed, the
    success flag is off and the only error is "Failed to save record.
    Please try again." on the field input. *)
Theorem handleSubmit_outcome (s : State) :
  let s' := fst (handleSubmit env s) in
  snd (handleSubmit env s) = Done tt /\
  (complete env (formData s) = false ->
   errors s' = newErrors env (formData s) /\ FormErrors.size (errors s') <> 0%nat /\
   formData s' = formData s /\ loading s' = loading s /\ success s' = success s) /\
  (complete env (formData s) = true -> user env = None ->
   errors s' = FormErrors.none /\ formData s' = formData s /\
   loading s' = loading s /\ success s' = success s) /\
  (forall uid, complete env (formData s) = true -> user env = Some uid ->
   loading s' = false /\
   (saved env = true ->
    formData s' = FormData.blank /\ errors s' = FormErrors.none /\ success s' = true) /\
   (saved env = false ->
    formData s' = formData s /\ success s' = false /\
    errors s' = {| FormErrors.field := Some "Failed to save record. Please try again.";
                   FormErrors.value := None; FormErrors.location := None |})).
Proof.
  cbv zeta.
  assert (Hnone : complete env (formData s) = true ->
                  newErrors env (formData s) = FormErrors.none).
  { unfold complete, newErrors, required. intros Hc.
    apply andb_true_iff in Hc as [Hc Hl]. apply andb_true_iff in Hc as [Hf Hv].
    now rewrite Hf, Hv, Hl. }
  assert (Hsize : complete env (formData s) = false ->
                  FormErrors.size (newErrors env (formData s)) <> 0%nat).
  { intros Hc. rewrite <- newErrors_size in Hc. now apply Nat.eqb_neq in Hc. }
  run_submit s;
    (split; [reflexivity |]);
    (split; [intros Hc';
             first [ discriminate Hc'
                   | split; [reflexivity | split; [now apply Hsize | repeat split]] ] |]);
    (split; [intros Hc' Hu';
             first [ discriminate Hc' | discriminate Hu'
                   | split; [now apply Hnone | repeat split] ] |]);
    intros uid' Hc' Hu';
    first [ discriminate Hc' | discriminate Hu'
          | split; [reflexivity |];
            split; intros Hs; first [ discriminate Hs | repeat split ] ].
Qed.

End FormFacts.

Lemma handleSubmit_calls_witness :
  exists rest,
    DataCollectionForm.calls
      (fst (DataCollectionForm.handleSubmit
         {| DataCollectionForm.trim := fun s => s;
            DataCollectionForm.user := Some "user-1";
            DataCollectionForm.recordResult := Done None;
            DataCollectionForm.entryResult := Done tt;
            DataCollectionForm.recordedAt := "2024-03-06T08:00:00.000Z";
            DataCollectionForm.loggedAt := "2024-03-06T08:00:00.100Z" |}
         {| DataCollectionForm.formData :=
              {| FormData.field := "Temp"; FormData.value := "20";
                 FormData.location := "Plot A" |};
            DataCollectionForm.errors := FormErrors.none;
            DataCollectionForm.loading := false;
            DataCollectionForm.success := false;
            DataCollectionForm.calls := [] |}))
    = InsertRecord
        {| NewRecord.field := "Temp"; NewRecord.value := "20";
           NewRecord.location := "Plot A"; NewRecord.user_id := "user-1";
           NewRecord.timestamp := "2024-03-06T08:00:00.000Z" |} :: rest.
Proof.
  destruct (handleSubmit_calls
         {| DataCollectionForm.trim := fun s => s;
            DataCollectionForm.user := Some "user-1";
            DataCollectionForm.recordResult := Done None;
            DataCollectionForm.entryResult := Done tt;
            DataCollectionForm.recordedAt := "2024-03-06T08:00:00.000Z";
            DataCollectionForm.loggedAt := "2024-03-06T08:00:00.100Z" |}
         {| DataCollectionForm.formData :=
              {| FormData.field := "Temp"; FormData.value := "20";
                 FormData.location := "Plot A" |};
            DataCollectionForm.errors := FormErrors.none;
            DataCollectionForm.loading := false;
            DataCollectionForm.success := false;
            DataCollectionForm.calls := [] |})
    as [issued [Hcalls [_ [Hfirst _]]]].
  destruct (Hfirst "user-1" eq_refl eq_refl) as [rest [Hissued _]].
  exists rest. rewrite Hcalls, Hissued. reflexivity.
Defined.

Lemma handleSubmit_outcome_witness :
  DataCollectionForm.formData
      (fst (DataCollectionForm.handleSubmit
         {| DataCollectionForm.trim := fun s => s;
            DataCollectionForm.user := Some "user-1";
            DataCollectionForm.recordResult := Done (Some "permission denied");
            DataCollectionForm.entryResult := Done tt;
            DataCollectionForm.recordedAt := "2024-03-06T08:00:00.000Z";
            DataCollectionForm.loggedAt := "2024-03-06T08:00:00.100Z" |}
         {| DataCollectionForm.formData :=
              {| FormData.field := "Temp"; FormData.value := "20";
                 FormData.location := "Plot A" |};
            DataCollectionForm.errors := FormErrors.none;
            DataCollectionForm.loading := false;
            DataCollectionForm.success := false;
            DataCollectionForm.calls := [] |}))
  = {| FormData.field := "Temp"; FormData.value := "20"; FormData.location := "Plot A" |}.
Proof.
  match goal with
  | |- DataCollectionForm.formData (fst (DataCollectionForm.handleSubmit ?e ?s)) = _ =>
      destruct (handleSubmit_outcome e s) as [_ [_ [_ H]]]
  end.
  destruct (H "user-1" eq_refl eq_refl) as [_ [_ Hfailed]].
  exact (proj1 (Hfailed eq_refl)).
Defined.
